(** * manage-venv: a shallow embedding of [manage-venv.py]

    The script is a linear pipeline: aggregate the per-directory
    [requirements.txt] files, provision a virtual environment, install,
    pin the unpinned requirement lines, and offer upgrades.

    Modelling choices.
    - A Python [str] is a [string]; a character is a code point below 256
      (Latin-1), so [isspace] and [lower] are Python's restricted to that
      range.
    - Text read from a file or captured from a child process is the text
      as Python's text layer hands it over (decoded, newlines normalised);
      a file's content in the model is that text, and [readlines] cuts it
      after each line feed.
    - A child process is seen through what [subprocess.run] reports: not
      found, a non-zero status, or completion with its captured output.
      What it does to the environment directory is not tracked.
    - [installed_packages] (a dict) is a [gmap string string];
      [requirements_packages] (a set) is a [gset string].
    - Effects (files, console, standard input, child processes, [sys.exit]
      and exceptions) are threaded through a small state-and-error monad. *)

From Stdlib Require Import Ascii NArith ZArith Sorted Permutation.
From stdpp Require Import gmap strings list fin_maps pretty sorting.

Local Open Scope char_scope.

(** ** Characters *)

Definition in_range (lo hi c : ascii) : bool :=
  ((N_of_ascii lo <=? N_of_ascii c) && (N_of_ascii c <=? N_of_ascii hi))%N.

Definition char_eqb (a b : ascii) : bool := Ascii.eqb a b.

(** [str.isspace] on one code point below 256: TAB..CR, FS..US, space,
    NEL and the no-break space. *)
Definition isspace (c : ascii) : bool :=
  in_range "009" "013" c || in_range "028" "032" c
  || char_eqb c "133" || char_eqb c "160".

(** [str.lower] on one code point below 256. *)
Definition lower_char (c : ascii) : ascii :=
  if in_range "A" "Z" c || in_range "192" "214" c || in_range "216" "222" c
  then ascii_of_N (N_of_ascii c + 32)
  else c.

(** The class [[a-zA-Z0-9\-_]]. *)
Definition name_char (c : ascii) : bool :=
  in_range "a" "z" c || in_range "A" "Z" c || in_range "0" "9" c
  || char_eqb c "-" || char_eqb c "_".

(** The class [[a-zA-Z0-9\-_,]]. *)
Definition extras_char (c : ascii) : bool :=
  in_range "a" "z" c || in_range "A" "Z" c || in_range "0" "9" c
  || char_eqb c "-" || char_eqb c "_" || char_eqb c ",".

Definition is_char (x c : ascii) : bool := char_eqb c x.

Local Close Scope char_scope.

(** ** Strings: the [str] methods the script calls *)

Fixpoint lower (s : string) : string :=
  match s with
  | EmptyString => EmptyString
  | String c s' => String (lower_char c) (lower s')
  end.

Fixpoint lstrip (s : string) : string :=
  match s with
  | EmptyString => EmptyString
  | String c s' => if isspace c then lstrip s' else s
  end.

Fixpoint rstrip (s : string) : string :=
  match s with
  | EmptyString => EmptyString
  | String c s' =>
      match rstrip s' with
      | EmptyString => if isspace c then EmptyString else String c EmptyString
      | r => String c r
      end
  end.

Definition strip (s : string) : string := rstrip (lstrip s).

(** [s.startswith(p)], returning the remainder as well. *)
Fixpoint strip_prefix (p s : string) : option string :=
  match p, s with
  | EmptyString, _ => Some s
  | String a p', String b s' => if char_eqb a b then strip_prefix p' s' else None
  | String _ _, EmptyString => None
  end.

Definition startswith (p s : string) : bool :=
  match strip_prefix p s with Some _ => true | None => false end.

(** [s.partition(sep)]: the text before and after the first occurrence. *)
Fixpoint find (sep s : string) : option (string * string) :=
  match strip_prefix sep s with
  | Some rest => Some (EmptyString, rest)
  | None =>
      match s with
      | EmptyString => None
      | String c s' =>
          match find sep s' with
          | Some (b, a) => Some (String c b, a)
          | None => None
          end
      end
  end.

(** [sep in s]. *)
Definition contains (sep s : string) : bool :=
  match find sep s with Some _ => true | None => false end.

(** [s.split(sep, maxsplit)]: at most [maxsplit] cuts, leftmost first. *)
Fixpoint split_max (maxsplit : nat) (sep s : string) : list string :=
  match maxsplit with
  | O => [s]
  | S n =>
      match find sep s with
      | Some (b, a) => b :: split_max n sep a
      | None => [s]
      end
  end.

(** [s.split(sep)] for a non-empty [sep]: every cut consumes a character,
    so [length s] cuts are never exceeded. *)
Definition split (sep s : string) : list string :=
  split_max (String.length s) sep s.

(** [s.split()]: maximal runs of non-whitespace. *)
Fixpoint split_ws_go (cur : option string) (s : string) : list string :=
  match s with
  | EmptyString => option_list (String.rev <$> cur)
  | String c s' =>
      if isspace c
      then option_list (String.rev <$> cur) ++ split_ws_go None s'
      else split_ws_go
             (Some (String c (default EmptyString cur))) s'
  end.

Definition split_ws (s : string) : list string := split_ws_go None s.

(** [sep.join(l)]. *)
Fixpoint join (sep : string) (l : list string) : string :=
  match l with
  | [] => EmptyString
  | [x] => x
  | x :: rest => x +:+ sep +:+ join sep rest
  end.

Definition newline : ascii := "010"%char.
Definition NL : string := String newline EmptyString.

(** [f.readlines()]: every line keeps its terminator; the last line has
    one only when the text ends with it. *)
Fixpoint readlines (s : string) : list string :=
  match s with
  | EmptyString => []
  | String c s' =>
      if char_eqb c newline then String c EmptyString :: readlines s'
      else match readlines s' with
           | [] => [String c EmptyString]
           | l :: ls => String c l :: ls
           end
  end.

(** [f.writelines(lines)] on a freshly truncated file. *)
Fixpoint writelines (lines : list string) : string :=
  match lines with
  | [] => EmptyString
  | l :: ls => l +:+ writelines ls
  end.

(** ** Regular expressions: the fragment [PACKAGE_REGEX] is written in

    A backtracking matcher in continuation-passing style, as in [re]:
    quantifiers are greedy and give characters back when the rest of the
    pattern fails.  Positions are suffixes of the subject string. *)

Inductive regex : Type :=
| Class (p : ascii → bool)      (* one character of a class *)
| Star (p : ascii → bool)       (* [class*] *)
| Plus (p : ascii → bool)       (* [class+] *)
| Maybe (r : regex)             (* [(?:r)?] *)
| Cat (r1 r2 : regex)
| Group (r : regex).            (* [(r)], capturing group 1 *)

(** The text between position [s] and the later position [s']. *)
Definition consumed (s s' : string) : string :=
  String.substring 0 (String.length s - String.length s') s.

Fixpoint greedy {A} (p : ascii → bool) (s : string)
    (k : string → option A) : option A :=
  match s with
  | EmptyString => k s
  | String c s' =>
      if p c
      then match greedy p s' k with
           | Some a => Some a
           | None => k s
           end
      else k s
  end.

Fixpoint rmatch {A} (r : regex) (s : string) (g : option string)
    (k : string → option string → option A) : option A :=
  match r with
  | Class p =>
      match s with
      | String c s' => if p c then k s' g else None
      | EmptyString => None
      end
  | Star p => greedy p s (λ s', k s' g)
  | Plus p =>
      match s with
      | String c s' => if p c then greedy p s' (λ s'', k s'' g) else None
      | EmptyString => None
      end
  | Maybe r' =>
      match rmatch r' s g k with
      | Some a => Some a
      | None => k s g
      end
  | Cat r1 r2 => rmatch r1 s g (λ s' g', rmatch r2 s' g' k)
  | Group r' => rmatch r' s g (λ s' _, k s' (Some (consumed s s')))
  end.

(** [pattern.match(line)]: anchored at position 0; the match object is
    represented by what [group(1)] holds. *)
Definition re_match (r : regex) (line : string) : option (option string) :=
  rmatch r line None (λ _ g, Some g).

Definition group1 (m : option string) : string := default EmptyString m.

(** ** Configuration *)

Definition PYTHON_VERSION : option string := Some "3.9".
Definition VENV_DIR : string := "venv".
Definition REQUIREMENTS_FILE : string := "requirements.txt".
Definition PYTHON_EXECUTABLE : string :=
  match PYTHON_VERSION with
  | None => "python3"
  | Some v => "python" +:+ v
  end.

(** [^\s*([a-zA-Z0-9\-_]+(?:\[[a-zA-Z0-9\-_,]+\])?)\s*]; the leading [^]
    is implied by [match].  [EXTRAS] is the bracketed part. *)
Definition EXTRAS : regex :=
  Cat (Class (is_char "[")) (Cat (Plus extras_char) (Class (is_char "]"))).

Definition PACKAGE_REGEX : regex :=
  Cat (Star isspace)
    (Cat (Group (Cat (Plus name_char) (Maybe EXTRAS)))
       (Star isspace)).

(** ** The pinner's text processing *)

(** [match.group(1).lower().split('[')[0]] *)
Definition package_name_of (m : option string) : string :=
  default EmptyString (head (split "[" (lower (group1 m)))).

(** the first loop of [pin_dependencies] *)
Fixpoint needs_pinning (original_lines : list string) : bool :=
  match original_lines with
  | [] => false
  | line :: rest =>
      match re_match PACKAGE_REGEX line with
      | Some _ => if negb (contains "==" line) then true else needs_pinning rest
      | None => needs_pinning rest
      end
  end.

(** the dict comprehension over [pip freeze]'s output; a later line
    overwrites an earlier one with the same key *)
Definition installed_packages (freeze_stdout : string) : gmap string string :=
  foldl (λ (d : gmap string string) line,
           let full_spec := strip line in
           if contains "==" full_spec then
             let name := default EmptyString (head (split "==" full_spec)) in
             match name with
             | EmptyString => d
             | _ => <[lower name := full_spec]> d
             end
           else d)
        ∅ (split NL (strip freeze_stdout)).

(** the body of the second loop: the line appended to [new_lines] and
    what is printed *)
Definition pin_line (installed : gmap string string) (line : string)
    : string * list string :=
  let line_stripped := strip line in
  if bool_decide (line_stripped = EmptyString) || startswith "#" line_stripped
  then (line, [])
  else
    match re_match PACKAGE_REGEX line with
    | Some m =>
        if negb (contains "==" line) then
          let package_name := package_name_of m in
          match installed !! package_name with
          | Some pinned_version =>
              let new_line :=
                if contains "#" line then
                  let parts := split_max 1 "#" line in
                  pinned_version +:+ "  # "
                    +:+ strip (default EmptyString (parts !! 1)) +:+ NL
                else pinned_version +:+ NL in
              (new_line,
               [">> Pinned '" +:+ package_name +:+ "' to '"
                  +:+ strip pinned_version +:+ "'"])
          | None => (line, [])
          end
        else (line, [])
    | None => (line, [])
    end.

Fixpoint pin_loop (installed : gmap string string)
    (original_lines new_lines printed : list string)
    : list string * list string :=
  match original_lines with
  | [] => (new_lines, printed)
  | line :: rest =>
      let '(new_line, out) := pin_line installed line in
      pin_loop installed rest (new_lines ++ [new_line]) (printed ++ out)
  end.

(** [new_lines] as handed to [writelines] *)
Definition pin_lines (installed : gmap string string)
    (original_lines : list string) : list string :=
  fst (pin_loop installed original_lines [] []).

(** ** The upgrade checker's text processing *)

(** the loop that fills [requirements_packages] *)
Fixpoint requirements_packages_loop (lines : list string)
    (requirements_packages : gset string) : gset string :=
  match lines with
  | [] => requirements_packages
  | line :: rest =>
      match re_match PACKAGE_REGEX line with
      | Some m =>
          requirements_packages_loop rest
            (requirements_packages ∪ {[ package_name_of m ]})
      | None => requirements_packages_loop rest requirements_packages
      end
  end.

Definition requirements_packages (lines : list string) : gset string :=
  requirements_packages_loop lines ∅.

Definition Upgrade : Type := string * string * string.

(** the loop over [outdated_lines[2:]]; a row that does not unpack into
    four fields raises [ValueError], which the loop swallows *)
Fixpoint targeted_upgrades_loop (reqs : gset string) (rows : list string)
    (targeted_upgrades : list Upgrade) : list Upgrade :=
  match rows with
  | [] => targeted_upgrades
  | line :: rest =>
      match split_ws line with
      | [package; current_v; latest_v; _] =>
          if bool_decide (lower package ∈ reqs)
          then targeted_upgrades_loop reqs rest
                 (targeted_upgrades ++ [(package, current_v, latest_v)])
          else targeted_upgrades_loop reqs rest targeted_upgrades
      | _ => targeted_upgrades_loop reqs rest targeted_upgrades
      end
  end.

Definition outdated_lines (list_stdout : string) : list string :=
  split NL (strip list_stdout).

Definition targeted_upgrades (reqs : gset string) (list_stdout : string)
    : list Upgrade :=
  targeted_upgrades_loop reqs (drop 2 (outdated_lines list_stdout)) [].

(** ** The world the script runs in *)

(** A [pathlib.Path], as its parts. *)
Abbreviation Path := (list string) (only parsing).

Definition path_str (p : Path) : string := join "/" p.

Inductive Node : Type :=
| Regular (content : string)
| Directory.

Inductive Exn : Type :=
| FileNotFoundError (msg : string)
| IsADirectoryError
| CalledProcessError (returncode : Z) (out err : string)
| EOFError.

(** What [subprocess.run] observes of a child process. *)
Inductive ProcResult : Type :=
| CommandNotFound
| NonZeroExit (returncode : Z) (out err : string)
| Completed (out : string).

Record CompletedProcess : Type := mkCompleted { stdout : string }.

Record World : Type := mkWorld {
  fs : gmap (list string) Node;   (* paths relative to the working directory *)
  stdin : list string;            (* lines still to be read, no terminator *)
  console : list string;          (* what the script wrote, oldest first *)
  calls : list (list string)      (* argv of every child started, oldest first *)
}.

Definition set_fs (f : gmap (list string) Node) (w : World) : World :=
  mkWorld f (stdin w) (console w) (calls w).
Definition set_stdin (i : list string) (w : World) : World :=
  mkWorld (fs w) i (console w) (calls w).
Definition set_console (c : list string) (w : World) : World :=
  mkWorld (fs w) (stdin w) c (calls w).
Definition set_calls (c : list (list string)) (w : World) : World :=
  mkWorld (fs w) (stdin w) (console w) c.

(** How a call ends: it returns, an exception propagates, or [sys.exit]
    unwinds the run. *)
Inductive Outcome (A : Type) : Type :=
| Ret (a : A)
| Raise (e : Exn)
| SysExit (code : Z).
Arguments Ret {A} a.
Arguments Raise {A} e.
Arguments SysExit {A} code.

Definition M (A : Type) : Type := World → Outcome A * World.

Definition ret {A} (a : A) : M A := λ w, (Ret a, w).

Definition bind {A B} (m : M A) (k : A → M B) : M B :=
  λ w, match m w with
       | (Ret a, w') => k a w'
       | (Raise e, w') => (Raise e, w')
       | (SysExit c, w') => (SysExit c, w')
       end.

Notation "x <- m ;; k" := (bind m (λ x, k))
  (at level 100, m at next level, right associativity, only parsing).
Notation "m ;;; k" := (bind m (λ _, k))
  (at level 100, right associativity, only parsing).

Definition raise {A} (e : Exn) : M A := λ w, (Raise e, w).
Definition sys_exit {A} (code : Z) : M A := λ w, (SysExit code, w).

(** [try: body / except ...: handler]; [handler e = None] when no clause
    catches [e].  [SystemExit] is none of the caught classes. *)
Definition try_except {A} (body : M A) (handler : Exn → option (M A)) : M A :=
  λ w, match body w with
       | (Raise e, w') =>
           match handler e with
           | Some h => h w'
           | None => (Raise e, w')
           end
       | r => r
       end.

Definition print (s : string) : M unit :=
  λ w, (Ret (), set_console (console w ++ [s +:+ NL]) w).

Fixpoint print_all (l : list string) : M unit :=
  match l with
  | [] => ret ()
  | s :: rest => print s ;;; print_all rest
  end.

(** [input(prompt)] *)
Definition input (prompt : string) : M string :=
  λ w, let w' := set_console (console w ++ [prompt]) w in
       match stdin w with
       | [] => (Raise EOFError, w')
       | l :: rest => (Ret l, set_stdin rest w')
       end.

Definition is_file (p : Path) : M bool :=
  λ w, (Ret (match fs w !! p with Some (Regular _) => true | _ => false end), w).

Definition is_dir (p : Path) : M bool :=
  λ w, (Ret (match fs w !! p with Some Directory => true | _ => false end), w).

(** [open(p, 'r').read()] *)
Definition read_text (p : Path) : M string :=
  λ w, match fs w !! p with
       | Some (Regular c) => (Ret c, w)
       | Some Directory => (Raise IsADirectoryError, w)
       | None => (Raise (FileNotFoundError (path_str p)), w)
       end.

(** [open(p, 'w')]: creates or truncates *)
Definition open_w (p : Path) : M unit :=
  λ w, match fs w !! p with
       | Some Directory => (Raise IsADirectoryError, w)
       | _ => (Ret (), set_fs (<[p := Regular EmptyString]> (fs w)) w)
       end.

(** [f.write(text)] on the file opened at [p] *)
Definition write (p : Path) (text : string) : M unit :=
  λ w, match fs w !! p with
       | Some (Regular c) => (Ret (), set_fs (<[p := Regular (c +:+ text)]> (fs w)) w)
       | _ => (Ret (), w)
       end.

(** [Path('.').glob('*/requirements.txt')]: the matching paths, in the
    order the directory scan happens to give. *)
Definition matches_pattern (p : Path) : bool :=
  match p with
  | [_; f] => bool_decide (f = REQUIREMENTS_FILE)
  | _ => false
  end.

Definition glob_requirements (w : World) : list Path :=
  filter (λ p, matches_pattern p = true) (map_to_list (fs w)).*1.

(** [<] on paths: list comparison of the parts, each by code points. *)
Fixpoint path_ltb (a b : Path) : bool :=
  match a, b with
  | [], [] => false
  | [], _ :: _ => true
  | _ :: _, [] => false
  | x :: a', y :: b' =>
      match String.compare x y with
      | Lt => true
      | Gt => false
      | Eq => path_ltb a' b'
      end
  end.

Fixpoint insert_sorted (p : Path) (l : list Path) : list Path :=
  match l with
  | [] => [p]
  | q :: l' => if path_ltb q p then q :: insert_sorted p l' else p :: l
  end.

(** [sorted(...)]: a stable sort by [<]. *)
Fixpoint sorted (l : list Path) : list Path :=
  match l with
  | [] => []
  | p :: l' => insert_sorted p (sorted l')
  end.

Fixpoint read_all (files : list Path) : M (list string) :=
  match files with
  | [] => ret []
  | f :: rest =>
      c <- read_text f ;;
      cs <- read_all rest ;;
      ret (c :: cs)
  end.

Section Script.

(** The environment's answer to each command line. *)
Variable proc : list string → ProcResult.

(** [subprocess.run(command, check=True, capture_output=capture, text=True)] *)
Definition run (command : list string) (capture : bool) : M CompletedProcess :=
  λ w, let w' := set_calls (calls w ++ [command]) w in
       match proc command with
       | CommandNotFound =>
           (Raise (FileNotFoundError (default EmptyString (head command))), w')
       | NonZeroExit rc out err => (Raise (CalledProcessError rc out err), w')
       | Completed out => (Ret (mkCompleted out), w')
       end.

Definition run_command (command : list string) (capture : bool)
    : M CompletedProcess :=
  try_except
    (print (">> Running command: " +:+ join " " command) ;;;
     run command capture)
    (λ e, match e with
          | FileNotFoundError _ =>
              Some (print (">> Error: Command not found: "
                             +:+ default EmptyString (head command)
                             +:+ ". Is it in your PATH?") ;;;
                    sys_exit 1)
          | CalledProcessError returncode out err =>
              Some (print (">> Error executing command: " +:+ join " " command) ;;;
                    print (">> Return code: " +:+ pretty returncode) ;;;
                    (if capture
                     then print (">>   Stdout: " +:+ strip out) ;;;
                          print (">>   Stderr: " +:+ strip err)
                     else ret ()) ;;;
                    sys_exit 1)
          | _ => None
          end).

Definition source_and_combine_requirements : M unit :=
  print "> Searching for 'requirements.txt' in subdirectories..." ;;;
  found_files <- (λ w, (Ret (sorted (glob_requirements w)), w)) ;;
  print_all ((λ f, ">> Found: " +:+ path_str f) <$> found_files) ;;;
  open_w [REQUIREMENTS_FILE] ;;;
  contents <- read_all found_files ;;
  write [REQUIREMENTS_FILE] (join NL contents).

Definition PYTHON_VENV_EXECUTABLE : Path := [VENV_DIR; "bin"; "python"].

Definition setup_virtual_environment : M Path :=
  d <- is_dir [VENV_DIR] ;;
  f <- is_file PYTHON_VENV_EXECUTABLE ;;
  (if negb d || negb f then
     print (">> Creating virtual environment at '" +:+ VENV_DIR +:+ "'...") ;;;
     run_command [PYTHON_EXECUTABLE; "-m"; "venv"; VENV_DIR] false ;;;
     print ">> Virtual environment created successfully."
   else
     print (">> Virtual environment found at '" +:+ VENV_DIR +:+ "'.")) ;;;
  ret PYTHON_VENV_EXECUTABLE.

Definition pin_dependencies (venv_python_path : Path) : M unit :=
  print "> Checking for unpinned dependencies in requirements.txt..." ;;;
  opened <- try_except
              (text <- read_text [REQUIREMENTS_FILE] ;;
               ret (Some (readlines text)))
              (λ e, match e with
                    | FileNotFoundError _ =>
                        Some (print (">> WARNING: '" +:+ REQUIREMENTS_FILE
                                       +:+ "' not found. Skipping dependency pinning.") ;;;
                              ret None)
                    | _ => None
                    end) ;;
  match opened with
  | None => ret ()
  | Some original_lines =>
      if negb (needs_pinning original_lines) then
        print "> NOTE: All dependencies are already pinned."
      else
        print "> Unpinned dependencies found. Generating pinned versions..." ;;;
        freeze_result <- run_command
                           [path_str venv_python_path; "-m"; "pip"; "freeze"] true ;;
        let installed := installed_packages (stdout freeze_result) in
        let '(new_lines, printed) := pin_loop installed original_lines [] [] in
        print_all printed ;;;
        open_w [REQUIREMENTS_FILE] ;;;
        write [REQUIREMENTS_FILE] (writelines new_lines) ;;;
        print ("> Successfully updated '" +:+ REQUIREMENTS_FILE
                 +:+ "' with pinned versions.")
  end.

Definition check_for_upgrades (venv_python_path : Path) : M unit :=
  print "> Checking for package upgrades..." ;;;
  opened <- try_except
              (text <- read_text [REQUIREMENTS_FILE] ;;
               ret (Some (readlines text)))
              (λ e, match e with
                    | FileNotFoundError _ =>
                        Some (print ("> WARNING: '" +:+ REQUIREMENTS_FILE
                                       +:+ "' not found. Cannot check for targeted upgrades.") ;;;
                              ret None)
                    | _ => None
                    end) ;;
  match opened with
  | None => ret ()
  | Some lines =>
      let reqs := requirements_packages lines in
      listed <- try_except
                  (result <- run_command
                               [path_str venv_python_path; "-m"; "pip"; "list";
                                "--outdated"] true ;;
                   ret (Some result))
                  (λ e, match e with
                        | CalledProcessError _ _ err =>
                            Some (print ("> Could not check for outdated packages. Error: "
                                           +:+ err) ;;;
                                  ret None)
                        | _ => None
                        end) ;;
      match listed with
      | None => ret ()
      | Some result =>
          if (length (outdated_lines (stdout result)) <=? 2)%nat then
            print "> All packages are up to date."
          else
            let targeted := targeted_upgrades reqs (stdout result) in
            match targeted with
            | [] => print "> All packages listed in requirements.txt are up to date."
            | _ :: _ =>
                print "> Upgrades available for the following packages:" ;;;
                print_all ((λ u : Upgrade,
                              let '(pkg, current, latest) := u in
                              ">>   - " +:+ pkg +:+ ": " +:+ current
                                +:+ " -> " +:+ latest) <$> targeted) ;;;
                answer <- try_except
                            (a <- input "> Would you like to upgrade these packages? (y/n): " ;;
                             ret (strip (lower a)))
                            (λ e, match e with
                                  | EOFError => Some (ret "n")
                                  | _ => None
                                  end) ;;
                if bool_decide (answer = "y") then
                  let packages_to_upgrade := (λ u : Upgrade, u.1.1) <$> targeted in
                  run_command
                    ([path_str venv_python_path; "-m"; "pip"; "install"; "--upgrade"]
                       ++ packages_to_upgrade) false ;;;
                  print "> Packages upgraded successfully."
                else
                  print "> No packages were upgraded."
            end
      end
  end.

Definition main : M unit :=
  source_and_combine_requirements ;;;
  generated <- is_file [REQUIREMENTS_FILE] ;;
  if negb generated then
    (* the [sys_exit(1)] written after this [raise] is never reached *)
    raise (FileNotFoundError
             ("The '" +:+ REQUIREMENTS_FILE
                +:+ "' file was not generated. Please create a requirements.txt file with your project's dependencies."))
  else
    venv_python_path <- setup_virtual_environment ;;
    print ("Installing dependencies from '" +:+ REQUIREMENTS_FILE +:+ "'...") ;;;
    run_command [path_str venv_python_path; "-m"; "pip"; "install"; "-r";
                 REQUIREMENTS_FILE] false ;;;
    print "Dependencies installed." ;;;
    pin_dependencies venv_python_path ;;;
    check_for_upgrades venv_python_path.

End Script.

(** ** What [PACKAGE_REGEX] matches, computed directly

    The classes that meet in the pattern are disjoint, so no quantifier
    ever gives a character back; [match_direct] reads the line once. *)

Fixpoint span (p : ascii → bool) (s : string) : string * string :=
  match s with
  | EmptyString => (EmptyString, EmptyString)
  | String c s' =>
      if p c then let '(a, b) := span p s' in (String c a, b)
      else (EmptyString, s)
  end.

Definition extras_suffix (s : string) : string :=
  match s with
  | String c r =>
      if is_char "[" c then
        match span extras_char r with
        | (String e ex, String d _) =>
            if is_char "]" d then String c (String e ex +:+ String d EmptyString)
            else EmptyString
        | _ => EmptyString
        end
      else EmptyString
  | EmptyString => EmptyString
  end.

Definition match_direct (line : string) : option (option string) :=
  match span name_char (lstrip line) with
  | (EmptyString, _) => None
  | (name, rest) => Some (Some (name +:+ extras_suffix rest))
  end.

(** The name the pattern captures, without the bracketed extras: the
    longest run of name characters after the leading white space. *)
Definition matched_name (line : string) : string :=
  (span name_char (lstrip line)).1.

(** The test both loops of [pin_dependencies] make:
    [PACKAGE_REGEX.match(line) and "==" not in line]. *)
Definition unpinned (line : string) : bool :=
  match re_match PACKAGE_REGEX line with
  | Some _ => negb (contains "==" line)
  | None => false
  end.

(** ** The upgrade filter, as the specification words it

    Each data row is split on white space into exactly four fields (name,
    current, latest, kind); other rows are dropped; the rows whose
    lower-cased name is in the manifest set are kept, in order. *)

Definition parse_row (line : string) : option (string * string * string * string) :=
  match split_ws line with
  | [name; current; latest; kind] => Some (name, current, latest, kind)
  | _ => None
  end.

Definition spec_candidates (reqs : gset string) (list_stdout : string)
    : list Upgrade :=
  (λ r : string * string * string * string, (r.1.1.1, r.1.1.2, r.1.2))
    <$> filter (λ r : string * string * string * string, lower r.1.1.1 ∈ reqs)
          (omap parse_row (drop 2 (outdated_lines list_stdout))).

(** ** Vocabulary for the statements about runs *)

(** What reading [p] yields when it is a regular file. *)
Definition content_of (f : gmap (list string) Node) (p : Path) : string :=
  match f !! p with
  | Some (Regular c) => c
  | _ => EmptyString
  end.

Definition is_regular (f : gmap (list string) Node) (p : Path) : Prop :=
  ∃ c, f !! p = Some (Regular c).

(** [a <= b] on paths: not [b < a]. *)
Definition path_le (a b : Path) : Prop := path_ltb b a = false.

(** The child process did not complete with status 0. *)
Definition failed (proc : list string → ProcResult) (command : list string)
    : bool :=
  match proc command with
  | Completed _ => false
  | _ => true
  end.

Definition PROMPT : string :=
  "> Would you like to upgrade these packages? (y/n): ".

(** How often the confirmation prompt was written. *)
Definition prompts (out : list string) : nat :=
  length (filter (λ s, s = PROMPT) out).

(** The console after the discovery messages. *)
Definition found_console (w : World) : list string :=
  console w
    ++ ["> Searching for 'requirements.txt' in subdirectories..." +:+ NL]
    ++ ((λ f, (">> Found: " +:+ path_str f) +:+ NL)
          <$> sorted (glob_requirements w)).

(** The call never ends with a propagating [FileNotFoundError]. *)
Definition never_missing_file {A} (m : M A) : Prop :=
  ∀ w msg, (m w).1 ≠ Raise (FileNotFoundError msg).

(** The call only adds to the record of child processes, and once one of
    them has failed the call ends in [sys.exit(1)]. *)
Definition fails_fast (proc : list string → ProcResult) {A} (m : M A) : Prop :=
  ∀ w, ∃ new, calls (m w).2 = calls w ++ new ∧
              (Exists (λ c, failed proc c = true) new → (m w).1 = SysExit 1).

(** The call leaves the record of child processes alone. *)
Definition quiet {A} (m : M A) : Prop := ∀ w, calls (m w).2 = calls w.

(** ** Lines of a text file *)

(** No character of [s] is [c]. *)
Fixpoint free_of (c : ascii) (s : string) : bool :=
  match s with
  | EmptyString => true
  | String x s' => negb (char_eqb x c) && free_of c s'
  end.

(** A line that ends with the terminator and has no other. *)
Definition terminated (l : string) : Prop :=
  ∃ body, l = body +:+ NL ∧ free_of newline body = true.

(** A last line without terminator. *)
Definition open_line (l : string) : Prop :=
  l ≠ EmptyString ∧ free_of newline l = true.

(** What [readlines] returns: terminated lines, the last one possibly
    open. *)
Fixpoint well_formed (ls : list string) : Prop :=
  match ls with
  | [] => True
  | l :: rest => (terminated l ∨ (rest = [] ∧ open_line l)) ∧ well_formed rest
  end.

(** A well-formed line has its only terminator at the end. *)
Definition line_like (s : string) : Prop :=
  free_of newline s = true ∨ ∃ x, s = x +:+ NL ∧ free_of newline x = true.

(** ** Example data: the specification's upgrade scenario *)

Definition example_manifest : string := "flask==2.0.1
".

Definition example_freeze : string := "requests==2.31.0
Flask==2.0.1
".

Definition example_outdated : string := "Package Version Latest Type
------- ------- ------ -----
Flask 2.0.1 2.3.2 wheel
".

Definition example_proc (command : list string) : ProcResult :=
  match command with
  | [_; "-m"; "pip"; "freeze"] => Completed example_freeze
  | [_; "-m"; "pip"; "list"; "--outdated"] => Completed example_outdated
  | _ => Completed EmptyString
  end.

(** A project whose root manifest names [flask]; the user answers "y". *)
Definition example_world : World :=
  mkWorld {[ [REQUIREMENTS_FILE] := Regular example_manifest ]} ["y"] [] [].

(** A project whose root manifest is the one line [text]. *)
Definition one_line_world (text : string) : World :=
  mkWorld {[ [REQUIREMENTS_FILE] := Regular text ]} [] [] [].

(** A project with nothing in it. *)
Definition empty_world : World := mkWorld ∅ [] [] [].

(** No command is found. *)
Definition no_tools (command : list string) : ProcResult := CommandNotFound.

(** ** Vocabulary for further statements *)


(** What one line of the freeze output contributes to the dict
    comprehension: nothing, or a key and its value. *)
Definition freeze_entry (line : string) : option (string * string) :=
  let full_spec := strip line in
  if contains "==" full_spec then
    match default EmptyString (head (split "==" full_spec)) with
    | EmptyString => None
    | name => Some (lower name, full_spec)
    end
  else None.

(** The call leaves one component of the world as it found it. *)
Definition preserves {A B} (part : World → B) (m : M A) : Prop :=
  ∀ w, part (m w).2 = part w.

(** The call only adds to the record of child processes, and it ends in
    [sys.exit] only with status 1 and right after a child that failed. *)
Definition exits_after_failure (proc : list string → ProcResult) {A}
    (m : M A) : Prop :=
  ∀ w, ∃ new, calls (m w).2 = calls w ++ new ∧
              ∀ code, (m w).1 = SysExit code →
                      code = 1%Z ∧
                      ∃ before command, new = before ++ [command] ∧
                                        failed proc command = true.

(** Reading fails for want of a file or on a directory. *)
Definition file_error (e : Exn) : Prop :=
  e = IsADirectoryError ∨ ∃ msg, e = FileNotFoundError msg.

(** The call takes at most one line from standard input. *)
Definition reads_at_most_one_line {A} (m : M A) : Prop :=
  ∀ w, stdin (m w).2 = stdin w ∨ stdin (m w).2 = tail (stdin w).

(** Every exception that propagates out of the call satisfies [P]. *)
Definition raises_within {A} (P : Exn → Prop) (m : M A) : Prop :=
  ∀ w e, (m w).1 = Raise e → P e.

(** ** Example data for the further statements *)

(** Two sub-manifests and a root manifest left from an earlier run. *)
Definition project_world : World :=
  mkWorld (<[ ["a"; REQUIREMENTS_FILE] := Regular ("flask" +:+ NL) ]>
             (<[ ["a-b"; REQUIREMENTS_FILE] := Regular "requests" ]>
                {[ [REQUIREMENTS_FILE] := Regular "stale" ]}))
    [] [] [].

(** The root manifest's place is taken by a directory. *)
Definition blocked_world : World :=
  mkWorld {[ [REQUIREMENTS_FILE] := Directory ]} [] [] [].


(** * Properties *)

(** ** Strings *)

Lemma append_cons (c : ascii) (s t : string) :
  String c s +:+ t = String c (s +:+ t).
Proof. reflexivity. Qed.

Lemma append_nil_l (s : string) : "" +:+ s = s.
Proof. reflexivity. Qed.

Lemma append_nil_r (s : string) : s +:+ "" = s.
Proof. induction s as [|c s IH]; [done|]. by rewrite append_cons, IH. Qed.

Lemma append_assoc (a b c : string) : (a +:+ b) +:+ c = a +:+ b +:+ c.
Proof. induction a as [|x a IH]; [done|]. by rewrite !append_cons, IH. Qed.

Lemma length_append (a b : string) :
  String.length (a +:+ b) = String.length a + String.length b.
Proof. induction a as [|x a IH]; [done|]. rewrite append_cons. cbn. by rewrite IH. Qed.

Lemma char_eqb_eq (a b : ascii) : char_eqb a b = true ↔ a = b.
Proof. apply Ascii.eqb_eq. Qed.

Lemma char_eqb_refl (a : ascii) : char_eqb a a = true.
Proof. by apply char_eqb_eq. Qed.

Lemma span_append p s : (span p s).1 +:+ (span p s).2 = s.
Proof.
  induction s as [|c s IH]; [done|]. cbn.
  destruct (p c); [|done]. destruct (span p s) as [a b]. cbn in *.
  by rewrite append_cons, IH.
Qed.

Lemma consumed_append (a b : string) : consumed (a +:+ b) b = a.
Proof.
  unfold consumed. rewrite length_append.
  replace (String.length a + String.length b - String.length b)
    with (String.length a) by lia.
  induction a as [|x a IH].
  - rewrite append_nil_l. by destruct b.
  - rewrite append_cons. cbn. by rewrite IH.
Qed.

(** ** The matcher on [PACKAGE_REGEX] *)

Lemma greedy_longest {A} p s (k : string → option A) a :
  k (span p s).2 = Some a → greedy p s k = Some a.
Proof.
  induction s as [|c s IH]; cbn; [done|].
  destruct (p c); [|done].
  destruct (span p s) as [x y]. cbn in *. intros H. by rewrite IH.
Qed.

Lemma greedy_const {A} p s (k : string → option A) a :
  (∀ t, k t = Some a) → greedy p s k = Some a.
Proof. intros H. by apply greedy_longest. Qed.

(** When the continuation needs a [q]-character next and [p] excludes
    [q], giving characters back cannot help. *)
Lemma greedy_stuck {A} (p q : ascii → bool) s (k : string → option A) :
  (∀ c, p c = true → q c = false) →
  (∀ c t, q c = false → k (String c t) = None) →
  k "" = None →
  k (span p s).2 = None → greedy p s k = None.
Proof.
  intros Hpq Hk Hnil. induction s as [|c s IH]; cbn; [done|].
  destruct (p c) eqn:Hc; [|done].
  destruct (span p s) as [x y]. cbn in *. intros H.
  rewrite IH by done. apply Hk. by apply Hpq.
Qed.

Lemma space_not_name c : isspace c = true → name_char c = false.
Proof. destruct c as [[] [] [] [] [] [] [] []]; by vm_compute. Qed.

Lemma extras_not_close c : extras_char c = true → is_char "]" c = false.
Proof. destruct c as [[] [] [] [] [] [] [] []]; by vm_compute. Qed.

Lemma span_lstrip s : (span isspace s).2 = lstrip s.
Proof.
  induction s as [|c s IH]; [done|]. cbn.
  destruct (isspace c); [|done]. by destruct (span isspace s).
Qed.

Lemma maybe_extras nm rest :
  rmatch (Maybe EXTRAS) rest None
    (λ u _, greedy isspace u (λ _, Some (Some (consumed (nm +:+ rest) u))))
  = Some (Some (nm +:+ extras_suffix rest)).
Proof.
  set (K := λ u (_ : option string),
         greedy isspace u (λ _, Some (Some (consumed (nm +:+ rest) u)))).
  assert (HK : ∀ u g, K u g = Some (Some (consumed (nm +:+ rest) u))).
  { intros u g. unfold K. by apply greedy_const. }
  assert (Hback : K rest None = Some (Some nm)).
  { by rewrite HK, consumed_append. }
  cbn [rmatch EXTRAS].
  destruct rest as [|d r]; cbn [extras_suffix].
  { by rewrite Hback, append_nil_r. }
  destruct (is_char "[" d) eqn:Hd; [|by rewrite Hback, append_nil_r].
  destruct r as [|e r']; [by cbn [span]; rewrite Hback, append_nil_r|].
  cbn [span]. destruct (extras_char e) eqn:He; [|by rewrite Hback, append_nil_r].
  set (k3 := λ s'' : string,
         match s'' with
         | String c s' => if is_char "]" c then K s' None else None
         | EmptyString => None
         end).
  pose proof (span_append extras_char r') as Hsp.
  destruct (span extras_char r') as [ex v] eqn:Hspan. cbn [fst snd] in Hsp.
  assert (Hv : (span extras_char r').2 = v) by (by rewrite Hspan).
  assert (Hstuck : k3 v = None →
            greedy extras_char r' k3 = None).
  { intros Hn. apply (greedy_stuck extras_char (is_char "]")).
    - apply extras_not_close.
    - intros c t Hc. unfold k3. by rewrite Hc.
    - done.
    - by rewrite Hv. }
  destruct v as [|x v']; [by rewrite Hstuck, Hback, append_nil_r|].
  destruct (is_char "]" x) eqn:Hx.
  - rewrite (greedy_longest extras_char r' k3
               (Some (nm +:+ String d (String e ex +:+ String x ""))));
      first done.
    rewrite Hv. unfold k3. rewrite Hx, HK. do 2 f_equal.
    rewrite <- Hsp.
    replace (nm +:+ String d (String e (ex +:+ String x v')))
      with ((nm +:+ String d (String e ex +:+ String x "")) +:+ v').
    { apply consumed_append. }
    by rewrite !append_assoc, !append_cons, !append_assoc, append_cons.
  - rewrite Hstuck, Hback, append_nil_r; [done|]. unfold k3. by rewrite Hx.
Qed.

Lemma after_spaces s :
  rmatch (Cat (Group (Cat (Plus name_char) (Maybe EXTRAS))) (Star isspace))
    s None (λ _ g, Some g)
  = match span name_char s with
    | (EmptyString, _) => None
    | (name, rest) => Some (Some (name +:+ extras_suffix rest))
    end.
Proof.
  cbn [rmatch]. destruct s as [|c t]; [done|]. cbn [span].
  destruct (name_char c) eqn:Hc; [|done].
  pose proof (span_append name_char t) as Hsp.
  destruct (span name_char t) as [nm rest] eqn:Hspan. cbn [fst snd] in Hsp.
  apply greedy_longest. rewrite Hspan. cbn [snd].
  rewrite <- Hsp, <- append_cons. apply maybe_extras.
Qed.

Lemma re_match_PACKAGE_REGEX line :
  re_match PACKAGE_REGEX line = match_direct line.
Proof.
  unfold re_match, match_direct, PACKAGE_REGEX.
  cbn [rmatch]. rewrite <- span_lstrip.
  match goal with |- greedy _ _ ?f = _ => set (k := f) end.
  assert (Hk : ∀ s, k s = match span name_char s with
                          | (EmptyString, _) => None
                          | (name, rest) => Some (Some (name +:+ extras_suffix rest))
                          end) by (intros s; apply after_spaces).
  destruct (span name_char (span isspace line).2) as [nm rest] eqn:Hspan.
  destruct nm as [|c nm].
  - apply (greedy_stuck isspace name_char); [apply space_not_name| | |].
    + intros c t Hc. rewrite Hk. cbn [span]. by rewrite Hc.
    + by rewrite Hk.
    + by rewrite Hk, Hspan.
  - apply greedy_longest. by rewrite Hk, Hspan.
Qed.

Lemma name_not_space c : name_char c = true → isspace c = false.
Proof. destruct c as [[] [] [] [] [] [] [] []]; by vm_compute. Qed.

Lemma name_not_hash c : name_char c = true → char_eqb "#" c = false.
Proof. destruct c as [[] [] [] [] [] [] [] []]; by vm_compute. Qed.

Lemma rstrip_cons c s : isspace c = false → rstrip (String c s) = String c (rstrip s).
Proof. intros H. cbn. rewrite H. by destruct (rstrip s). Qed.

Example match_plain :
  re_match PACKAGE_REGEX "  requests  # pinned above" = Some (Some "requests").
Proof. reflexivity. Qed.

Example match_extras :
  re_match PACKAGE_REGEX "Flask[async,dotenv]>=2.0" = Some (Some "Flask[async,dotenv]").
Proof. reflexivity. Qed.

Example match_unclosed_extras :
  re_match PACKAGE_REGEX "Flask[async>=2.0" = Some (Some "Flask").
Proof. reflexivity. Qed.

Example match_comment : re_match PACKAGE_REGEX "# a comment" = None.
Proof. reflexivity. Qed.

Example match_option_line :
  re_match PACKAGE_REGEX "-e git+https://example.org/x.git" = Some (Some "-e").
Proof. reflexivity. Qed.

(** A line the pattern matches has a name character right after its
    leading white space. *)
Lemma match_starts_with_name line m :
  re_match PACKAGE_REGEX line = Some m →
  ∃ c rest, lstrip line = String c rest ∧ name_char c = true.
Proof.
  rewrite re_match_PACKAGE_REGEX. unfold match_direct.
  destruct (lstrip line) as [|c rest]; [done|]. cbn [span].
  destruct (name_char c) eqn:Hc; [|done]. eauto.
Qed.

Lemma match_group_set line m :
  re_match PACKAGE_REGEX line = Some m → ∃ g, m = Some g.
Proof.
  rewrite re_match_PACKAGE_REGEX. unfold match_direct.
  destruct (span name_char (lstrip line)) as [[|c nm] rest]; [done|].
  intros [= <-]. eauto.
Qed.

(** Such a line is neither blank nor a full-line comment. *)
Lemma match_not_blank_or_comment line m :
  re_match PACKAGE_REGEX line = Some m →
  bool_decide (strip line = "") || startswith "#" (strip line) = false.
Proof.
  intros (c & rest & Hl & Hc)%match_starts_with_name.
  unfold strip. rewrite Hl, rstrip_cons by by apply name_not_space.
  rewrite bool_decide_eq_false_2 by done.
  unfold startswith. cbn [strip_prefix]. by rewrite name_not_hash.
Qed.

(** ** The pinning loop *)

Lemma pin_loop_map installed ls acc printed :
  pin_loop installed ls acc printed
  = (acc ++ ((λ l, (pin_line installed l).1) <$> ls),
     printed ++ concat ((λ l, (pin_line installed l).2) <$> ls)).
Proof.
  revert acc printed. induction ls as [|l ls IH]; intros acc printed; cbn.
  - by rewrite !app_nil_r.
  - destruct (pin_line installed l) as [nl out] eqn:Hl. rewrite IH. cbn.
    by rewrite <- !app_assoc.
Qed.

Lemma pin_lines_map installed ls :
  pin_lines installed ls = (λ l, (pin_line installed l).1) <$> ls.
Proof. unfold pin_lines. by rewrite pin_loop_map. Qed.

Lemma pin_line_keeps installed line :
  unpinned line = false → (pin_line installed line).1 = line.
Proof.
  unfold unpinned, pin_line. intros H.
  destruct (_ || _); [done|].
  destruct (re_match PACKAGE_REGEX line); [|done].
  by rewrite H.
Qed.

Lemma pin_line_absent installed line m :
  re_match PACKAGE_REGEX line = Some m →
  installed !! package_name_of m = None →
  (pin_line installed line).1 = line.
Proof.
  unfold pin_line. intros -> ->.
  destruct (_ || _); [done|]. by destruct (negb _).
Qed.

Lemma pin_line_found installed line m pinned_version :
  re_match PACKAGE_REGEX line = Some m →
  contains "==" line = false →
  installed !! package_name_of m = Some pinned_version →
  (pin_line installed line).1
  = if contains "#" line
    then pinned_version +:+ "  # "
           +:+ strip (default "" (split_max 1 "#" line !! 1)) +:+ NL
    else pinned_version +:+ NL.
Proof.
  intros Hm Heq Hin. unfold pin_line.
  rewrite (match_not_blank_or_comment _ _ Hm), Hm, Heq, Hin. done.
Qed.

(** The first loop looks for an unpinned line. *)
Lemma needs_pinning_unpinned ls :
  needs_pinning ls = true ↔ ∃ line, line ∈ ls ∧ unpinned line = true.
Proof.
  induction ls as [|l ls IH]; cbn [needs_pinning].
  - split; [done|]. by intros (line & ?%elem_of_nil & _).
  - assert (Hl : unpinned l
                 = match re_match PACKAGE_REGEX l with
                   | Some _ => negb (contains "==" l)
                   | None => false
                   end) by done.
    destruct (re_match PACKAGE_REGEX l) as [m|].
    + destruct (negb (contains "==" l)).
      * split; [|done]. intros _. exists l. split; [apply list_elem_of_here|done].
      * rewrite IH. split.
        -- intros (line & Hin & Hu). exists line. split; [by apply list_elem_of_further|done].
        -- intros (line & [->|Hin]%elem_of_cons & Hu); [congruence|by eauto].
    + rewrite IH. split.
      * intros (line & Hin & Hu). exists line. split; [by apply list_elem_of_further|done].
      * intros (line & [->|Hin]%elem_of_cons & Hu); [congruence|by eauto].
Qed.

(** ** Substring search *)

Lemma strip_prefix_append sep a b rest :
  strip_prefix sep a = Some rest → strip_prefix sep (a +:+ b) = Some (rest +:+ b).
Proof.
  revert a. induction sep as [|x sep IH]; intros a; cbn.
  - by intros [= ->].
  - destruct a as [|y a]; [done|]. rewrite append_cons.
    destruct (char_eqb x y); [apply IH|done].
Qed.

Lemma find_unfold sep s :
  find sep s
  = match strip_prefix sep s with
    | Some rest => Some ("", rest)
    | None =>
        match s with
        | "" => None
        | String c s' =>
            match find sep s' with
            | Some (b, a) => Some (String c b, a)
            | None => None
            end
        end
    end.
Proof. by destruct s. Qed.

Lemma contains_append sep a b :
  contains sep a = true → contains sep (a +:+ b) = true.
Proof.
  unfold contains. induction a as [|c a IH]; rewrite (find_unfold sep).
  - destruct (strip_prefix sep "") as [rest|] eqn:Hp; [|done].
    intros _. rewrite append_nil_l, (find_unfold sep b).
    apply (strip_prefix_append _ _ b) in Hp. rewrite append_nil_l in Hp.
    by rewrite Hp.
  - rewrite (find_unfold sep (String c a +:+ b)).
    destruct (strip_prefix sep (String c a)) as [rest|] eqn:Hp.
    + intros _. by rewrite (strip_prefix_append _ _ b _ Hp).
    + destruct (strip_prefix sep (String c a +:+ b)); [done|].
      rewrite append_cons.
      destruct (find sep a) as [[x y]|]; [|done]. intros _.
      specialize (IH eq_refl). by destruct (find sep (a +:+ b)) as [[??]|].
Qed.

(** [find] cuts the string at an occurrence of the separator. *)
Lemma strip_prefix_spec sep s rest :
  strip_prefix sep s = Some rest → s = sep +:+ rest.
Proof.
  revert s. induction sep as [|x sep IH]; intros s; cbn.
  - by intros [= ->].
  - destruct s as [|y s]; [done|].
    destruct (char_eqb x y) eqn:Hxy; [|done].
    apply char_eqb_eq in Hxy as ->. intros H%IH. by rewrite append_cons, <- H.
Qed.

Lemma find_spec sep s b a :
  find sep s = Some (b, a) → s = b +:+ sep +:+ a.
Proof.
  revert b. induction s as [|c s IH]; intros b; rewrite find_unfold.
  - destruct (strip_prefix sep "") eqn:Hp; [|done].
    intros [= <- <-]. rewrite append_nil_l. by apply strip_prefix_spec.
  - destruct (strip_prefix sep (String c s)) eqn:Hp.
    + intros [= <- <-]. rewrite append_nil_l. by apply strip_prefix_spec.
    + destruct (find sep s) as [[x y]|]; [|done].
      intros [= <- <-]. rewrite append_cons. f_equal. by apply IH.
Qed.

(** With a one-character separator, the part before the cut is free of it:
    the cut is at the first occurrence. *)
Lemma find_char_first c s b a :
  find (String c "") s = Some (b, a) → contains (String c "") b = false.
Proof.
  unfold contains.
  revert b. induction s as [|x s IH]; intros b; rewrite find_unfold; cbn [strip_prefix].
  - done.
  - destruct (char_eqb c x) eqn:Hcx.
    + by intros [= <- <-].
    + destruct (find (String c "") s) as [[u v]|]; [|done].
      intros [= <- <-]. specialize (IH u eq_refl).
      rewrite find_unfold. cbn [strip_prefix]. rewrite Hcx.
      by destruct (find (String c "") u).
Qed.

(** ** The installed-package map *)

Lemma installed_packages_pinned freeze_stdout name full_spec :
  installed_packages freeze_stdout !! name = Some full_spec →
  contains "==" full_spec = true.
Proof.
  unfold installed_packages.
  generalize (split NL (strip freeze_stdout)). intros ls.
  assert (Hgen : ∀ d : gmap string string,
    (∀ k v, d !! k = Some v → contains "==" v = true) →
    ∀ k v,
      foldl (λ (d : gmap string string) line,
               let full_spec := strip line in
               if contains "==" full_spec then
                 let name := default "" (head (split "==" full_spec)) in
                 match name with
                 | "" => d
                 | _ => <[lower name := full_spec]> d
                 end
               else d) d ls !! k = Some v →
      contains "==" v = true).
  { induction ls as [|l ls IH]; intros d Hd k v; cbn [foldl]; [apply Hd|].
    apply IH. intros k' v'.
    destruct (contains "==" (strip l)) eqn:Hl; [|apply Hd].
    destruct (default "" (head (split "==" (strip l)))) eqn:Hn; [apply Hd|].
    rewrite lookup_insert. case_decide; [|apply Hd].
    by intros [= <-]. }
  apply Hgen. intros k v. by rewrite lookup_empty.
Qed.

Lemma unpinned_blank_or_comment line :
  bool_decide (strip line = "") || startswith "#" (strip line) = true →
  unpinned line = false.
Proof.
  unfold unpinned. intros H.
  destruct (re_match PACKAGE_REGEX line) as [m|] eqn:Hm; [|done].
  apply match_not_blank_or_comment in Hm. congruence.
Qed.

Lemma unpinned_marker line : contains "==" line = true → unpinned line = false.
Proof. unfold unpinned. intros ->. by destruct (re_match _ _). Qed.

Lemma unpinned_no_match line :
  re_match PACKAGE_REGEX line = None → unpinned line = false.
Proof. unfold unpinned. by intros ->. Qed.

Lemma split_once sep line b a :
  find sep line = Some (b, a) → split_max 1 sep line = [b; a].
Proof. cbn. by intros ->. Qed.

(** A line the loop rewrote begins with a value of the installed map. *)
Lemma pin_line_changed installed line :
  (pin_line installed line).1 ≠ line →
  ∃ k v rest, installed !! k = Some v ∧
              (pin_line installed line).1 = v +:+ rest.
Proof.
  unfold pin_line. destruct (_ || _); [done|].
  destruct (re_match PACKAGE_REGEX line) as [m|]; [|done].
  destruct (negb _); [|done].
  destruct (installed !! package_name_of m) as [v|] eqn:Hv; [|done].
  intros _. cbn [fst]. exists (package_name_of m), v.
  destruct (contains "#" line); eauto.
Qed.

Lemma pin_line_idempotent installed line :
  (∀ k v, installed !! k = Some v → contains "==" v = true) →
  (pin_line installed (pin_line installed line).1).1 = (pin_line installed line).1.
Proof.
  intros Hv.
  destruct (decide ((pin_line installed line).1 = line)) as [He|Hne];
    [by rewrite !He|].
  apply pin_line_changed in Hne as (k & v & rest & Hk & ->).
  apply pin_line_keeps, unpinned_marker, contains_append. eauto.
Qed.

Lemma pin_lines_idempotent_for installed ls :
  (∀ k v, installed !! k = Some v → contains "==" v = true) →
  pin_lines installed (pin_lines installed ls) = pin_lines installed ls.
Proof.
  intros Hv. rewrite !pin_lines_map, <- list_fmap_compose.
  apply list_fmap_ext. intros _ line _. cbn. by apply pin_line_idempotent.
Qed.

(** ** The upgrade filter *)

Lemma requirements_packages_loop_elem lines acc name :
  name ∈ requirements_packages_loop lines acc ↔
  name ∈ acc ∨
  ∃ line m, line ∈ lines ∧ re_match PACKAGE_REGEX line = Some m
            ∧ name = package_name_of m.
Proof.
  revert acc. induction lines as [|l lines IH]; intros acc;
    cbn [requirements_packages_loop].
  - split; [by left|]. intros [?|(line & m & []%elem_of_nil & _)]; done.
  - destruct (re_match PACKAGE_REGEX l) as [m|] eqn:Hl; rewrite IH.
    + rewrite elem_of_union, elem_of_singleton. split.
      * intros [[?| ->]|(line & m' & Hin & Hm & Hn)]; [by left|right..].
        -- exists l, m. by rewrite elem_of_cons; auto.
        -- exists line, m'. by rewrite elem_of_cons; auto.
      * intros [?|(line & m' & [->|Hin]%elem_of_cons & Hm & Hn)];
          [by left; left| |by right; eauto].
        left; right. congruence.
    + split.
      * intros [?|(line & m' & Hin & Hm & Hn)]; [by left|right].
        exists line, m'. by rewrite elem_of_cons; auto.
      * intros [?|(line & m' & [->|Hin]%elem_of_cons & Hm & Hn)];
          [by left|congruence|by right; eauto].
Qed.

Lemma targeted_upgrades_loop_spec reqs rows acc :
  targeted_upgrades_loop reqs rows acc
  = acc ++ ((λ r : string * string * string * string, (r.1.1.1, r.1.1.2, r.1.2))
              <$> filter (λ r : string * string * string * string,
                            lower r.1.1.1 ∈ reqs)
                    (omap parse_row rows)).
Proof.
  revert acc. induction rows as [|l rows IH]; intros acc.
  - cbn. by rewrite app_nil_r.
  - cbn [targeted_upgrades_loop omap list_omap]. unfold parse_row at 1.
    destruct (split_ws l) as [|a [|b [|c [|d [|??]]]]]; try apply IH.
    rewrite filter_cons. cbn [fst snd].
    case_bool_decide as Hin.
    + rewrite decide_True by done. rewrite IH, <- app_assoc. done.
    + rewrite decide_False by done. apply IH.
Qed.

(** ** Running the script: basic steps *)

Lemma print_all_run l w :
  print_all l w = (Ret (), set_console (console w ++ ((λ s, s +:+ NL) <$> l)) w).
Proof.
  revert w. induction l as [|s l IH]; intros w; cbn [print_all fmap list_fmap].
  - unfold ret. rewrite app_nil_r. by destruct w.
  - unfold bind, print. rewrite IH. cbn. by rewrite <- app_assoc.
Qed.

Lemma read_all_run files w :
  Forall (is_regular (fs w)) files →
  read_all files w = (Ret (content_of (fs w) <$> files), w).
Proof.
  induction 1 as [|f files [c Hf] _ IH]; [done|].
  cbn [read_all fmap list_fmap]. unfold bind at 1, read_text. rewrite Hf.
  unfold bind at 1. rewrite IH.
  replace (content_of (fs w) f) with c; [done|].
  unfold content_of. by rewrite Hf.
Qed.

(** Reading never fails for want of a file when every path is present. *)
Lemma read_all_present files w :
  Forall (λ p, is_Some (fs w !! p)) files →
  (∃ cs, read_all files w = (Ret cs, w)) ∨
  read_all files w = (Raise IsADirectoryError, w).
Proof.
  induction 1 as [|f files [n Hf] _ IH]; [left; by eexists|].
  cbn [read_all]. unfold bind, read_text. rewrite Hf.
  destruct n as [c|]; [|by right].
  destruct IH as [[cs ->]| ->]; [left; by eexists|by right].
Qed.

(** ** Sorting the discovered paths *)

Lemma path_ltb_asym a b : path_ltb a b = true → path_ltb b a = false.
Proof.
  revert b. induction a as [|x a IH]; intros [|y b]; cbn; try done.
  rewrite (String.compare_antisym y x).
  destruct (String.compare x y); cbn; auto.
Qed.

Lemma insert_sorted_perm p l : Permutation (insert_sorted p l) (p :: l).
Proof.
  induction l as [|q l IH]; cbn; [done|].
  destruct (path_ltb q p); [|done].
  rewrite IH. apply perm_swap.
Qed.

Lemma sorted_perm l : Permutation (sorted l) l.
Proof.
  induction l as [|p l IH]; cbn; [done|].
  by rewrite insert_sorted_perm, IH.
Qed.

Lemma insert_sorted_ordered p l :
  Sorted path_le l → Sorted path_le (insert_sorted p l).
Proof.
  induction 1 as [|q l Hl IH Hhd]; cbn.
  - by repeat constructor.
  - destruct (path_ltb q p) eqn:Hqp.
    + constructor; [done|].
      destruct l as [|r l]; cbn.
      * constructor. by apply path_ltb_asym.
      * destruct (path_ltb r p); constructor.
        -- by inversion Hhd.
        -- by apply path_ltb_asym.
    + constructor; [by constructor|]. by constructor.
Qed.

Lemma sorted_ordered l : Sorted path_le (sorted l).
Proof.
  induction l as [|p l IH]; cbn; [constructor|].
  by apply insert_sorted_ordered.
Qed.

(** ** The aggregation stage *)

Lemma glob_present w p :
  p ∈ glob_requirements w → is_Some (fs w !! p) ∧ p ≠ [REQUIREMENTS_FILE].
Proof.
  unfold glob_requirements.
  intros [Hm Hin]%list_elem_of_filter.
  apply list_elem_of_fmap in Hin as ([q n] & -> & Hin). cbn in *.
  apply elem_of_map_to_list in Hin. split; [by eexists|].
  by destruct q as [|? [|? [|??]]].
Qed.

Lemma sorted_glob_present w :
  Forall (λ p, is_Some (fs w !! p) ∧ p ≠ [REQUIREMENTS_FILE])
    (sorted (glob_requirements w)).
Proof.
  apply Forall_forall. intros p Hp. apply glob_present.
  by rewrite <- (sorted_perm (glob_requirements w)).
Qed.

Lemma read_all_world files w : (read_all files w).2 = w.
Proof.
  induction files as [|f files IH]; [done|].
  cbn [read_all]. unfold bind, read_text.
  destruct (fs w !! f) as [[c|]|]; [|done..].
  by destruct (read_all files w) as [[cs|e|k] w'].
Qed.

Lemma found_console_eq w :
  (console w
     ++ ["> Searching for 'requirements.txt' in subdirectories..." +:+ NL])
    ++ ((λ s, s +:+ NL)
          <$> ((λ f, ">> Found: " +:+ path_str f)
                 <$> sorted (glob_requirements w)))
  = found_console w.
Proof.
  unfold found_console. by rewrite <- list_fmap_compose, <- app_assoc.
Qed.

Lemma aggregation_run w :
  source_and_combine_requirements w
  = match fs w !! [REQUIREMENTS_FILE] with
    | Some Directory => (Raise IsADirectoryError, set_console (found_console w) w)
    | _ =>
        match read_all (sorted (glob_requirements w))
                (set_fs (<[ [REQUIREMENTS_FILE] := Regular "" ]> (fs w))
                   (set_console (found_console w) w)) with
        | (Ret cs, _) =>
            (Ret (),
             set_fs (<[ [REQUIREMENTS_FILE] := Regular (join NL cs) ]> (fs w))
               (set_console (found_console w) w))
        | (Raise e, w') => (Raise e, w')
        | (SysExit c, w') => (SysExit c, w')
        end
    end.
Proof.
  unfold source_and_combine_requirements.
  unfold bind at 1. unfold print at 1.
  unfold bind at 1. cbn [fst snd].
  change (glob_requirements (set_console _ w)) with (glob_requirements w).
  unfold bind at 1. rewrite print_all_run.
  cbn [set_console console fs stdin calls]. rewrite found_console_eq.
  unfold bind at 1. unfold open_w at 1. cbn [set_console console fs stdin calls].
  set (w2 := mkWorld (fs w) (stdin w) (found_console w) (calls w)).
  assert (Hrest :
    bind (read_all (sorted (glob_requirements w)))
      (λ contents, write [REQUIREMENTS_FILE] (join NL contents))
      (set_fs (<[ [REQUIREMENTS_FILE] := Regular "" ]> (fs w)) w2)
    = match read_all (sorted (glob_requirements w))
              (set_fs (<[ [REQUIREMENTS_FILE] := Regular "" ]> (fs w)) w2) with
      | (Ret cs, _) =>
          (Ret (), set_fs (<[ [REQUIREMENTS_FILE] := Regular (join NL cs) ]> (fs w)) w2)
      | (Raise e, w') => (Raise e, w')
      | (SysExit c, w') => (SysExit c, w')
      end).
  { unfold bind.
    pose proof (read_all_world (sorted (glob_requirements w))
                  (set_fs (<[ [REQUIREMENTS_FILE] := Regular "" ]> (fs w)) w2)) as Hsame.
    destruct (read_all _ _) as [[cs|e|k] w']; [|done..].
    cbn [snd] in Hsame. subst w'.
    unfold write. cbn [fs set_fs]. rewrite lookup_insert_eq.
    by rewrite insert_insert_eq. }
  destruct (fs w !! [REQUIREMENTS_FILE]) as [[c|]|]; [exact Hrest|done|exact Hrest].
Qed.

Lemma aggregation_reads_present w :
  Forall (λ p, is_Some (fs (set_fs (<[ [REQUIREMENTS_FILE] := Regular "" ]> (fs w))
                              (set_console (found_console w) w)) !! p))
    (sorted (glob_requirements w)).
Proof.
  eapply Forall_impl; [apply sorted_glob_present|].
  intros p [Hp Hne]. cbn [fs set_fs]. by rewrite lookup_insert_ne.
Qed.

(** When the aggregation returns, the root manifest is a regular file. *)
Lemma aggregation_root_regular w w' :
  source_and_combine_requirements w = (Ret (), w') →
  is_regular (fs w') [REQUIREMENTS_FILE].
Proof.
  rewrite aggregation_run.
  assert (Hgo : match read_all (sorted (glob_requirements w))
                        (set_fs (<[ [REQUIREMENTS_FILE] := Regular "" ]> (fs w))
                           (set_console (found_console w) w)) with
                | (Ret cs, _) =>
                    (Ret (),
                     set_fs (<[ [REQUIREMENTS_FILE] := Regular (join NL cs) ]> (fs w))
                       (set_console (found_console w) w))
                | (Raise e, w'') => (Raise e, w'')
                | (SysExit c, w'') => (SysExit c, w'')
                end = (Ret (), w') →
                is_regular (fs w') [REQUIREMENTS_FILE]).
  { destruct (read_all _ _) as [[cs|e|k] w'']; [|done..].
    intros [= <-]. exists (join NL cs). cbn [fs set_fs]. apply lookup_insert_eq. }
  destruct (fs w !! [REQUIREMENTS_FILE]) as [[c|]|]; [exact Hgo|done|exact Hgo].
Qed.

(** The aggregation never ends for want of a file. *)
Lemma aggregation_no_missing_file w msg :
  (source_and_combine_requirements w).1 ≠ Raise (FileNotFoundError msg).
Proof.
  rewrite aggregation_run.
  assert (Hgo : (match read_all (sorted (glob_requirements w))
                        (set_fs (<[ [REQUIREMENTS_FILE] := Regular "" ]> (fs w))
                           (set_console (found_console w) w)) with
                 | (Ret cs, _) =>
                     (Ret (),
                      set_fs (<[ [REQUIREMENTS_FILE] := Regular (join NL cs) ]> (fs w))
                        (set_console (found_console w) w))
                 | (Raise e, w'') => (Raise e, w'')
                 | (SysExit c, w'') => (SysExit c, w'')
                 end).1 ≠ Raise (FileNotFoundError msg)).
  { destruct (read_all_present _ _ (aggregation_reads_present w))
      as [[cs ->]| ->]; done. }
  destruct (fs w !! [REQUIREMENTS_FILE]) as [[c|]|]; [exact Hgo|done|exact Hgo].
Qed.

(** ** Child processes *)

Section Runs.

Variable proc : list string → ProcResult.

Lemma run_command_run command capture w :
  let started :=
    set_calls (calls w ++ [command])
      (set_console (console w ++ [(">> Running command: " +:+ join " " command) +:+ NL]) w) in
  run_command proc command capture w
  = match proc command with
    | Completed out => (Ret (mkCompleted out), started)
    | CommandNotFound =>
        (SysExit 1,
         set_console
           (console started
              ++ [(">> Error: Command not found: " +:+ default "" (head command)
                     +:+ ". Is it in your PATH?") +:+ NL]) started)
    | NonZeroExit rc out err =>
        (SysExit 1,
         set_console
           (console started
              ++ [(">> Error executing command: " +:+ join " " command) +:+ NL;
                  (">> Return code: " +:+ pretty rc) +:+ NL]
              ++ (if capture
                  then [(">>   Stdout: " +:+ strip out) +:+ NL;
                        (">>   Stderr: " +:+ strip err) +:+ NL]
                  else [])) started)
    end.
Proof.
  intros started. unfold run_command, try_except, bind, print, run, sys_exit.
  cbn [fst snd console calls fs stdin set_console set_calls].
  destruct (proc command) as [|rc out err|out]; [done| |done].
  destruct capture; cbn [fst snd console calls fs stdin set_console set_calls];
    unfold started; cbn [fst snd console calls fs stdin set_console set_calls];
    by rewrite <- !app_assoc.
Qed.

(** *** Never a missing file *)

Lemma nmf_ret {A} (a : A) : never_missing_file (ret a).
Proof. done. Qed.

Lemma nmf_bind {A B} (m : M A) (k : A → M B) :
  never_missing_file m → (∀ a, never_missing_file (k a)) →
  never_missing_file (bind m k).
Proof.
  intros Hm Hk w msg. unfold bind. specialize (Hm w msg).
  destruct (m w) as [[a|e|c] w']; [apply Hk| |done].
  cbn in *. congruence.
Qed.

Lemma nmf_print s : never_missing_file (print s).
Proof. done. Qed.

Lemma nmf_print_all l : never_missing_file (print_all l).
Proof. intros w msg. by rewrite print_all_run. Qed.

Lemma nmf_sys_exit {A} c : never_missing_file (@sys_exit A c).
Proof. done. Qed.

Lemma nmf_is_file p : never_missing_file (is_file p).
Proof. done. Qed.

Lemma nmf_is_dir p : never_missing_file (is_dir p).
Proof. done. Qed.

Lemma nmf_open_w p : never_missing_file (open_w p).
Proof. intros w msg. unfold open_w. by destruct (fs w !! p) as [[]|]. Qed.

Lemma nmf_write p t : never_missing_file (write p t).
Proof. intros w msg. unfold write. by destruct (fs w !! p) as [[]|]. Qed.

Lemma nmf_input p : never_missing_file (input p).
Proof. intros w msg. unfold input. by destruct (stdin w). Qed.

Lemma nmf_run_command command capture :
  never_missing_file (run_command proc command capture).
Proof.
  intros w msg. rewrite run_command_run. by destruct (proc command).
Qed.

(** A [try] whose handler takes every [FileNotFoundError]. *)
Lemma nmf_try_catching {A} (body : M A) handler :
  (∀ msg, is_Some (handler (FileNotFoundError msg))) →
  (∀ e h, handler e = Some h → never_missing_file h) →
  never_missing_file (try_except body handler).
Proof.
  intros Hc Hh w msg. unfold try_except.
  destruct (body w) as [[a|e|c] w']; [done| |done].
  destruct (handler e) as [h|] eqn:He; [by eapply Hh|].
  cbn. intros [= ->]. destruct (Hc msg) as [h Hsome]. congruence.
Qed.

Lemma nmf_try {A} (body : M A) handler :
  never_missing_file body →
  (∀ e h, handler e = Some h → never_missing_file h) →
  never_missing_file (try_except body handler).
Proof.
  intros Hb Hh w msg. unfold try_except. specialize (Hb w msg).
  destruct (body w) as [[a|e|c] w']; [done| |done].
  destruct (handler e) as [h|] eqn:He; [by eapply Hh|exact Hb].
Qed.

(** *** Failing fast *)

Lemma quiet_fails_fast {A} (m : M A) : quiet m → fails_fast proc m.
Proof.
  intros Hq w. exists []. rewrite app_nil_r. split; [apply Hq|].
  by intros ?%Exists_nil.
Qed.

Lemma ff_bind {A B} (m : M A) (k : A → M B) :
  fails_fast proc m → (∀ a, fails_fast proc (k a)) →
  fails_fast proc (bind m k).
Proof.
  intros Hm Hk w. unfold bind. destruct (Hm w) as (new & Hc & Hf).
  destruct (m w) as [[a|e|c] w'] eqn:Hmw; cbn [fst snd] in *;
    [|exists new; split; [done|]; intros H%Hf; by inversion H..].
  destruct (Hk a w') as (new' & Hc' & Hf').
  exists (new ++ new'). rewrite Hc', Hc, app_assoc. split; [done|].
  intros [H|H]%Exists_app; [by apply Hf in H|by apply Hf'].
Qed.

Lemma ff_try {A} (body : M A) handler :
  fails_fast proc body →
  (∀ e h, handler e = Some h → fails_fast proc h) →
  fails_fast proc (try_except body handler).
Proof.
  intros Hb Hh w. unfold try_except. destruct (Hb w) as (new & Hc & Hf).
  destruct (body w) as [[a|e|c] w'] eqn:Hbw; cbn [fst snd] in *; [by eauto| |by eauto].
  destruct (handler e) as [h|] eqn:He; [|by eauto].
  destruct (Hh e h He w') as (new' & Hc' & Hf').
  exists (new ++ new'). rewrite Hc', Hc, app_assoc. split; [done|].
  intros [H|H]%Exists_app; [by apply Hf in H|by apply Hf'].
Qed.

Lemma ff_run_command command capture :
  fails_fast proc (run_command proc command capture).
Proof.
  intros w. exists [command]. rewrite run_command_run. unfold failed.
  destruct (proc command) eqn:Hp;
    (split; [done|]); rewrite Exists_cons, Exists_nil, Hp; intros [?|[]]; done.
Qed.

Lemma quiet_ret {A} (a : A) : quiet (ret a).
Proof. done. Qed.
Lemma quiet_print s : quiet (print s).
Proof. done. Qed.
Lemma quiet_print_all l : quiet (print_all l).
Proof. intros w. by rewrite print_all_run. Qed.
Lemma quiet_raise {A} e : quiet (@raise A e).
Proof. done. Qed.
Lemma quiet_is_file p : quiet (is_file p).
Proof. done. Qed.
Lemma quiet_is_dir p : quiet (is_dir p).
Proof. done. Qed.
Lemma quiet_read_text p : quiet (read_text p).
Proof. intros w. unfold read_text. by destruct (fs w !! p) as [[]|]. Qed.
Lemma quiet_open_w p : quiet (open_w p).
Proof. intros w. unfold open_w. by destruct (fs w !! p) as [[]|]. Qed.
Lemma quiet_write p t : quiet (write p t).
Proof. intros w. unfold write. by destruct (fs w !! p) as [[]|]. Qed.
Lemma quiet_input p : quiet (input p).
Proof. intros w. unfold input. by destruct (stdin w). Qed.

End Runs.

Create HintDb stages.

Ltac handler_cases :=
  let e := fresh "e" in
  let h := fresh "h" in
  let He := fresh "He" in
  intros e h He; destruct e; try discriminate He; injection He as <-.

Lemma quiet_read_all files : quiet (read_all files).
Proof. intros w. by rewrite read_all_world. Qed.

Ltac quiet_prim :=
  first [ apply quiet_ret | apply quiet_print | apply quiet_print_all
        | apply quiet_raise | apply quiet_is_file | apply quiet_is_dir
        | apply quiet_read_text | apply quiet_open_w | apply quiet_write
        | apply quiet_input | apply quiet_read_all | (intros ?; reflexivity) ].

Ltac ff_step :=
  lazymatch goal with
  | |- fails_fast _ (bind _ _) => apply ff_bind; [|intros ?]
  | |- fails_fast _ (try_except _ _) => apply ff_try; [|handler_cases]
  | |- fails_fast _ (run_command _ _ _) => apply ff_run_command
  | |- fails_fast _ (match ?x with _ => _ end) => destruct x
  | |- fails_fast _ _ =>
      first [ eassumption | solve [eauto with stages]
            | apply quiet_fails_fast; quiet_prim ]
  end.

Ltac nmf_step :=
  lazymatch goal with
  | |- never_missing_file (bind _ _) => apply nmf_bind; [|intros ?]
  | |- never_missing_file (try_except (bind (read_text _) _) _) =>
      apply nmf_try_catching; [intros ?; by eexists|handler_cases]
  | |- never_missing_file (try_except _ _) => apply nmf_try; [|handler_cases]
  | |- never_missing_file (run_command _ _ _) => apply nmf_run_command
  | |- never_missing_file (match ?x with _ => _ end) => destruct x
  | |- never_missing_file _ =>
      first [ solve [eauto with stages] | apply nmf_ret | apply nmf_print | apply nmf_print_all
            | apply nmf_sys_exit | apply nmf_is_file | apply nmf_is_dir
            | apply nmf_open_w | apply nmf_write | apply nmf_input ]
  end.

Section Stages.
Variable proc : list string → ProcResult.

Lemma ff_aggregation : fails_fast proc source_and_combine_requirements.
Proof. unfold source_and_combine_requirements. repeat ff_step. Qed.

Lemma ff_setup : fails_fast proc (setup_virtual_environment proc).
Proof. unfold setup_virtual_environment. repeat ff_step. Qed.

Lemma ff_pin venv : fails_fast proc (pin_dependencies proc venv).
Proof. unfold pin_dependencies. repeat ff_step. Qed.

Lemma ff_check venv : fails_fast proc (check_for_upgrades proc venv).
Proof. unfold check_for_upgrades. repeat ff_step. Qed.

Lemma nmf_setup : never_missing_file (setup_virtual_environment proc).
Proof. unfold setup_virtual_environment. repeat nmf_step. Qed.

Lemma nmf_pin venv : never_missing_file (pin_dependencies proc venv).
Proof. unfold pin_dependencies. repeat nmf_step. Qed.

Lemma nmf_check venv : never_missing_file (check_for_upgrades proc venv).
Proof. unfold check_for_upgrades. repeat nmf_step. Qed.

Hint Resolve ff_aggregation ff_setup ff_pin ff_check nmf_setup nmf_pin nmf_check
  : stages.

(** Every stage of a run fails fast. *)
Lemma ff_main : fails_fast proc (main proc).
Proof. unfold main. repeat ff_step. Qed.

(** A run never ends with [FileNotFoundError]: the aggregation has created
    the root manifest by the time [main] looks for it. *)
Lemma main_never_missing_file : never_missing_file (main proc).
Proof.
  intros w msg. unfold main. unfold bind at 1.
  pose proof (aggregation_no_missing_file w msg) as Hagg.
  destruct (source_and_combine_requirements w) as [[[]|e|c] w'] eqn:Hrun;
    [|cbn in *; congruence|done].
  apply aggregation_root_regular in Hrun as [text Hroot].
  unfold bind at 1, is_file. rewrite Hroot. cbn [negb].
  assert (Hrest : never_missing_file
            (bind (setup_virtual_environment proc) (λ venv_python_path,
               bind (print ("Installing dependencies from '" +:+ REQUIREMENTS_FILE +:+ "'..."))
                 (λ _, bind (run_command proc
                                [path_str venv_python_path; "-m"; "pip"; "install"; "-r";
                                 REQUIREMENTS_FILE] false)
                   (λ _, bind (print "Dependencies installed.")
                     (λ _, bind (pin_dependencies proc venv_python_path)
                       (λ _, check_for_upgrades proc venv_python_path)))))))
    by repeat nmf_step.
  apply Hrest.
Qed.
End Stages.

(** ** A stage that finds no manifest *)

Section MissingManifest.
Variable proc : list string → ProcResult.

Lemma pin_dependencies_missing venv w :
  fs w !! [REQUIREMENTS_FILE] = None →
  pin_dependencies proc venv w
  = (Ret (),
     set_console
       (console w
          ++ ["> Checking for unpinned dependencies in requirements.txt..." +:+ NL;
              (">> WARNING: '" +:+ REQUIREMENTS_FILE
                 +:+ "' not found. Skipping dependency pinning.") +:+ NL]) w).
Proof.
  intros Hroot. unfold pin_dependencies, bind, try_except, read_text, print, ret.
  cbn [fst snd console calls fs stdin set_console]. rewrite Hroot.
  cbn [fst snd console calls fs stdin set_console].
  by rewrite <- app_assoc.
Qed.

Lemma check_for_upgrades_missing venv w :
  fs w !! [REQUIREMENTS_FILE] = None →
  check_for_upgrades proc venv w
  = (Ret (),
     set_console
       (console w
          ++ ["> Checking for package upgrades..." +:+ NL;
              ("> WARNING: '" +:+ REQUIREMENTS_FILE
                 +:+ "' not found. Cannot check for targeted upgrades.") +:+ NL]) w).
Proof.
  intros Hroot. unfold check_for_upgrades, bind, try_except, read_text, print, ret.
  cbn [fst snd console calls fs stdin set_console]. rewrite Hroot.
  cbn [fst snd console calls fs stdin set_console].
  by rewrite <- app_assoc.
Qed.

End MissingManifest.

(** ** The confirmation prompt *)

Lemma contains_append_r sep a b :
  contains sep b = true → contains sep (a +:+ b) = true.
Proof.
  unfold contains. intros Hb. induction a as [|c a IH]; [done|].
  rewrite append_cons, find_unfold.
  destruct (strip_prefix sep (String c (a +:+ b))); [done|].
  by destruct (find sep (a +:+ b)) as [[??]|].
Qed.

(** A printed line is never the prompt: the prompt has no line terminator. *)
Lemma line_not_prompt s : s +:+ NL ≠ PROMPT.
Proof.
  intros H. assert (Hc : contains NL (s +:+ NL) = true).
  { by apply contains_append_r. }
  rewrite H in Hc. by vm_compute in Hc.
Qed.

Lemma prompts_app a b : prompts (a ++ b) = prompts a + prompts b.
Proof. unfold prompts. by rewrite filter_app, length_app. Qed.

Lemma prompts_cons_line s l : prompts ((s +:+ NL) :: l) = prompts l.
Proof.
  unfold prompts. rewrite filter_cons, decide_False; [done|apply line_not_prompt].
Qed.

Lemma prompts_cons_prompt l : prompts (PROMPT :: l) = S (prompts l).
Proof. unfold prompts. by rewrite filter_cons, decide_True. Qed.

Lemma prompts_lines {A} (f : A → string) (l : list A) :
  prompts ((λ x, f x +:+ NL) <$> l) = 0.
Proof.
  induction l as [|x l IH]; [done|]. cbn [fmap list_fmap].
  by rewrite prompts_cons_line.
Qed.

Section UpgradeRun.
Variable proc : list string → ProcResult.

Lemma targeted_needs_rows reqs out u us :
  targeted_upgrades reqs out = u :: us →
  (length (outdated_lines out) <=? 2)%nat = false.
Proof.
  unfold targeted_upgrades.
  by destruct (outdated_lines out) as [|a [|b [|c l]]].
Qed.

Lemma check_for_upgrades_run venv w text out u us :
  fs w !! [REQUIREMENTS_FILE] = Some (Regular text) →
  proc [path_str venv; "-m"; "pip"; "list"; "--outdated"] = Completed out →
  targeted_upgrades (requirements_packages (readlines text)) out = u :: us →
  let asked :=
    mkWorld (fs w) (tail (stdin w))
      (console w
         ++ ["> Checking for package upgrades..." +:+ NL;
             (">> Running command: "
                +:+ join " " [path_str venv; "-m"; "pip"; "list"; "--outdated"]) +:+ NL;
             "> Upgrades available for the following packages:" +:+ NL]
         ++ ((λ u : Upgrade,
                (">>   - " +:+ u.1.1 +:+ ": " +:+ u.1.2 +:+ " -> " +:+ u.2) +:+ NL)
               <$> (u :: us))
         ++ [PROMPT])
      (calls w ++ [[path_str venv; "-m"; "pip"; "list"; "--outdated"]]) in
  let answer := match stdin w with [] => "n" | a :: _ => strip (lower a) end in
  check_for_upgrades proc venv w
  = if bool_decide (answer = "y")
    then bind (run_command proc
                 ([path_str venv; "-m"; "pip"; "install"; "--upgrade"]
                    ++ ((λ u : Upgrade, u.1.1) <$> (u :: us))) false)
           (λ _, print "> Packages upgraded successfully.") asked
    else print "> No packages were upgraded." asked.
Proof.
  intros Hroot Hlist Htar asked answer.
  destruct w as [f0 i0 c0 k0]. cbn [fs stdin console calls] in *.
  unfold check_for_upgrades.
  unfold bind at 1. unfold print at 1. cbn [fst snd].
  unfold bind at 1. unfold try_except at 1. unfold bind at 1. unfold read_text at 1.
  cbn [fst snd console calls fs stdin set_console]. rewrite Hroot.
  cbn [ret fst snd].
  unfold bind at 1. unfold try_except at 1. unfold bind at 1.
  rewrite run_command_run, Hlist. cbn [ret fst snd stdout].
  rewrite (targeted_needs_rows _ _ _ _ Htar), Htar.
  unfold bind at 1. unfold print at 1. cbn [fst snd].
  unfold bind at 1. rewrite print_all_run. cbn [fst snd].
  unfold bind at 1. unfold try_except at 1. unfold bind at 1. unfold input at 1.
  cbn [fst snd console calls fs stdin set_console set_calls set_stdin].
  rewrite <- !list_fmap_compose.
  rewrite (list_fmap_ext _
             (λ u : Upgrade,
                (">>   - " +:+ u.1.1 +:+ ": " +:+ u.1.2 +:+ " -> " +:+ u.2) +:+ NL)
             (u :: us)) by (by intros ? [[??]?] ?).
  rewrite <- !app_assoc. cbn [app].
  unfold asked, answer.
  destruct i0 as [|a rest]; cbn [ret fst snd tail]; [reflexivity|].
  destruct (bool_decide (strip (lower a) = "y")); reflexivity.
Qed.

(** C7.  With candidates at hand the checker asks once and reads one
    line.  At end of input the answer is "n".  When the answer, lower-cased
    and trimmed, is "y", one more child process is started: the batch
    upgrade whose arguments are the candidates' names as the outdated list
    spells them.  On any other answer the only child process is the
    listing, and the stage returns. *)
Theorem upgrade_confirmation venv w text out u us :
  fs w !! [REQUIREMENTS_FILE] = Some (Regular text) →
  proc [path_str venv; "-m"; "pip"; "list"; "--outdated"] = Completed out →
  targeted_upgrades (requirements_packages (readlines text)) out = u :: us →
  let result := check_for_upgrades proc venv w in
  let answer := match stdin w with [] => "n" | a :: _ => strip (lower a) end in
  let listing := [path_str venv; "-m"; "pip"; "list"; "--outdated"] in
  let upgrade := [path_str venv; "-m"; "pip"; "install"; "--upgrade"]
                   ++ ((λ u : Upgrade, u.1.1) <$> (u :: us)) in
  prompts (console result.2) = S (prompts (console w)) ∧
  stdin result.2 = tail (stdin w) ∧
  (stdin w = [] → answer = "n") ∧
  (answer = "y" → calls result.2 = calls w ++ [listing; upgrade]) ∧
  (answer ≠ "y" → calls result.2 = calls w ++ [listing] ∧ result.1 = Ret ()).
Proof.
  intros Hroot Hlist Htar result answer listing upgrade.
  unfold result. rewrite (check_for_upgrades_run _ _ _ _ _ _ Hroot Hlist Htar).
  fold answer listing upgrade.
  set (asked := mkWorld _ _ _ _).
  assert (Hasked : prompts (console asked) = S (prompts (console w))).
  { unfold asked. cbn [console].
    rewrite !prompts_app, !prompts_cons_line, prompts_lines, prompts_cons_prompt.
    unfold prompts at 2 3. cbn. lia. }
  split; [|split; [|split; [|split]]].
  - case_bool_decide.
    + unfold bind. rewrite run_command_run.
      destruct (proc upgrade) as [|rc o e|o]; unfold print;
        cbn [fst snd console set_console set_calls];
        rewrite ?prompts_app, ?prompts_cons_line, Hasked; unfold prompts; cbn; lia.
    + unfold print. cbn [fst snd console set_console].
      rewrite prompts_app, prompts_cons_line, Hasked. unfold prompts. cbn. lia.
  - case_bool_decide.
    + unfold bind. rewrite run_command_run.
      by destruct (proc upgrade) as [|rc o e|o].
    + done.
  - unfold answer. by intros ->.
  - intros Hy. rewrite bool_decide_eq_true_2 by done.
    unfold bind. rewrite run_command_run.
    destruct (proc upgrade) as [|rc o e|o]; unfold print;
      cbn [fst snd calls set_console set_calls]; unfold asked; cbn [calls];
      by rewrite <- app_assoc.
  - intros Hy. by rewrite bool_decide_eq_false_2 by done.
Qed.

End UpgradeRun.

(** ** The claims about the aggregation and about failures *)

Lemma aggregation_returns w :
  fs w !! [REQUIREMENTS_FILE] ≠ Some Directory →
  Forall (is_regular (fs w)) (glob_requirements w) →
  source_and_combine_requirements w
  = (Ret (),
     set_fs (<[ [REQUIREMENTS_FILE] :=
                  Regular (join NL (content_of (fs w)
                                      <$> sorted (glob_requirements w))) ]> (fs w))
       (set_console (found_console w) w)).
Proof.
  intros Hroot Hreg. rewrite aggregation_run.
  set (w3 := set_fs _ (set_console (found_console w) w)).
  assert (Hsame : ∀ p, p ∈ sorted (glob_requirements w) →
                       fs w3 !! p = fs w !! p).
  { intros p Hp. unfold w3. cbn [fs set_fs set_console].
    apply lookup_insert_ne.
    rewrite (sorted_perm (glob_requirements w)) in Hp.
    apply glob_present in Hp as [_ Hne]. congruence. }
  assert (Hreg3 : Forall (is_regular (fs w3)) (sorted (glob_requirements w))).
  { apply Forall_forall. intros p Hp. unfold is_regular. rewrite (Hsame p Hp).
    rewrite Forall_forall in Hreg. apply Hreg.
    by rewrite <- (sorted_perm (glob_requirements w)). }
  rewrite (read_all_run _ _ Hreg3).
  assert (Hcs : content_of (fs w3) <$> sorted (glob_requirements w)
                = content_of (fs w) <$> sorted (glob_requirements w)).
  { apply list_fmap_ext. intros i p Hp%list_elem_of_lookup_2.
    unfold content_of. by rewrite (Hsame p Hp). }
  rewrite Hcs.
  by destruct (fs w !! [REQUIREMENTS_FILE]) as [[c|]|].
Qed.

(** C1.  What the aggregation writes, and what happens with no
    sub-manifest.  When the root path is not a directory and every
    discovered path is a regular file, the stage returns and the root
    manifest holds the contents of the discovered files, joined by a
    newline, in sorted path order.  With nothing discovered the stage still
    creates the root manifest, empty; [main] then finds it and never raises
    [FileNotFoundError]. *)
Theorem aggregation_output :
  (∀ w, fs w !! [REQUIREMENTS_FILE] ≠ Some Directory →
        Forall (is_regular (fs w)) (glob_requirements w) →
        let found := sorted (glob_requirements w) in
        Sorted path_le found ∧ Permutation found (glob_requirements w) ∧
        ∃ w', source_and_combine_requirements w = (Ret (), w') ∧
              fs w' !! [REQUIREMENTS_FILE]
              = Some (Regular (join NL (content_of (fs w) <$> found)))) ∧
  (∀ (proc : list string → ProcResult) w,
        fs w !! [REQUIREMENTS_FILE] ≠ Some Directory →
        glob_requirements w = [] →
        (∃ w', source_and_combine_requirements w = (Ret (), w') ∧
               fs w' !! [REQUIREMENTS_FILE] = Some (Regular "")) ∧
        ∀ msg, (main proc w).1 ≠ Raise (FileNotFoundError msg)) ∧
  (main example_proc empty_world).1 = Ret () ∧
  fs (main example_proc empty_world).2 !! [REQUIREMENTS_FILE] = Some (Regular "") ∧
  calls (main example_proc empty_world).2
  = [["python3.9"; "-m"; "venv"; "venv"];
     ["venv/bin/python"; "-m"; "pip"; "install"; "-r"; "requirements.txt"];
     ["venv/bin/python"; "-m"; "pip"; "list"; "--outdated"]].
Proof.
  split; [|split; [|by vm_compute]].
  - intros w Hroot Hreg found.
    split; [apply sorted_ordered|]. split; [apply sorted_perm|].
    eexists. split; [by apply aggregation_returns|].
    cbn [fs set_fs]. apply lookup_insert_eq.
  - intros proc w Hroot Hnone. split.
    + eexists. split.
      * apply aggregation_returns; [done|]. rewrite Hnone. constructor.
      * cbn [fs set_fs]. rewrite Hnone. apply lookup_insert_eq.
    + intros msg. apply main_never_missing_file.
Qed.

(** C8.  A stage that finds no root manifest prints its warning and
    returns; nothing but the console changes.  A command that is not found
    or exits with a non-zero status ends [run_command] in [sys.exit(1)],
    and a run in which some child process failed ends in [sys.exit(1)]. *)
Theorem missing_manifest_skips_failed_command_exits
    (proc : list string → ProcResult) :
  (∀ venv w, fs w !! [REQUIREMENTS_FILE] = None →
     pin_dependencies proc venv w
     = (Ret (),
        set_console
          (console w
             ++ ["> Checking for unpinned dependencies in requirements.txt..." +:+ NL;
                 ">> WARNING: 'requirements.txt' not found. Skipping dependency pinning."
                   +:+ NL]) w)) ∧
  (∀ venv w, fs w !! [REQUIREMENTS_FILE] = None →
     check_for_upgrades proc venv w
     = (Ret (),
        set_console
          (console w
             ++ ["> Checking for package upgrades..." +:+ NL;
                 "> WARNING: 'requirements.txt' not found. Cannot check for targeted upgrades."
                   +:+ NL]) w)) ∧
  (∀ command capture w,
     proc command = CommandNotFound ∨
     (∃ rc out err, proc command = NonZeroExit rc out err) →
     (run_command proc command capture w).1 = SysExit 1) ∧
  (∀ w, ∃ started,
     calls (main proc w).2 = calls w ++ started ∧
     (Exists (λ command, failed proc command = true) started →
      (main proc w).1 = SysExit 1)).
Proof.
  split; [|split; [|split]].
  - intros venv w Hroot. by rewrite pin_dependencies_missing.
  - intros venv w Hroot. by rewrite check_for_upgrades_missing.
  - intros command capture w H. rewrite run_command_run.
    by destruct H as [->|(rc & out & err & ->)].
  - apply ff_main.
Qed.

(** C9.  When the aggregation returns, the root manifest is a regular
    file, whatever was discovered; it returns whenever the root path is not
    a directory and the discovered paths are regular files, the empty
    discovery included.  So the test [main] makes next always finds the
    file, and [main] never raises [FileNotFoundError]. *)
Theorem root_manifest_exists_after_aggregation :
  (∀ w w', source_and_combine_requirements w = (Ret (), w') →
           (∃ content, fs w' !! [REQUIREMENTS_FILE] = Some (Regular content)) ∧
           is_file [REQUIREMENTS_FILE] w' = (Ret true, w')) ∧
  (∀ w, fs w !! [REQUIREMENTS_FILE] ≠ Some Directory →
        Forall (is_regular (fs w)) (glob_requirements w) →
        ∃ w', source_and_combine_requirements w = (Ret (), w')) ∧
  (∀ proc w msg, (main proc w).1 ≠ Raise (FileNotFoundError msg)).
Proof.
  split; [|split].
  - intros w w' [content Hc]%aggregation_root_regular.
    split; [by exists content|]. unfold is_file. by rewrite Hc.
  - intros w Hroot Hreg. eexists. by apply aggregation_returns.
  - intros proc w msg. apply main_never_missing_file.
Qed.

(** ** Text files: reading back what was written *)

Lemma free_of_append c a b :
  free_of c (a +:+ b) = free_of c a && free_of c b.
Proof.
  induction a as [|x a IH]; [done|]. rewrite append_cons. cbn.
  by rewrite IH, andb_assoc.
Qed.

Lemma free_of_lstrip c s : free_of c s = true → free_of c (lstrip s) = true.
Proof.
  induction s as [|x s IH]; [done|]. cbn.
  destruct (isspace x); [|done]. intros [_ H]%andb_true_iff. by apply IH.
Qed.

Lemma free_of_rstrip c s : free_of c s = true → free_of c (rstrip s) = true.
Proof.
  induction s as [|x s IH]; [done|]. cbn.
  intros [Hx H]%andb_true_iff. specialize (IH H).
  destruct (rstrip s) as [|y r].
  - destruct (isspace x); [done|]. cbn. by rewrite Hx.
  - cbn [free_of]. by rewrite Hx.
Qed.

Lemma free_of_strip c s : free_of c s = true → free_of c (strip s) = true.
Proof. intros H. by apply free_of_rstrip, free_of_lstrip. Qed.

Lemma rstrip_append_newline s : rstrip (s +:+ NL) = rstrip s.
Proof.
  induction s as [|x s IH]; [done|].
  rewrite append_cons. cbn. by rewrite IH.
Qed.

Lemma lstrip_append_newline s :
  lstrip (s +:+ NL) = match lstrip s with "" => "" | t => t +:+ NL end.
Proof.
  induction s as [|x s IH]; [done|].
  rewrite append_cons. cbn. destruct (isspace x); [done|].
  by rewrite append_cons.
Qed.

Lemma strip_append_newline s : strip (s +:+ NL) = strip s.
Proof.
  unfold strip. rewrite lstrip_append_newline.
  destruct (lstrip s) as [|x t]; [done|]. apply rstrip_append_newline.
Qed.

(** Splitting [p ++ a] where the whole ends with a terminator. *)
Lemma append_ends_newline p a x :
  p +:+ a = x +:+ NL → a = "" ∨ ∃ a', a = a' +:+ NL ∧ p +:+ a' = x.
Proof.
  revert x. induction p as [|c p IH]; intros x; rewrite ?append_nil_l.
  - intros ->. right. by exists x.
  - rewrite append_cons. destruct x as [|d x].
    + rewrite append_nil_l. intros [= -> H].
      destruct p; [|by destruct p]. rewrite append_nil_l in H. by left.
    + rewrite append_cons. intros [= -> H].
      destruct (IH x H) as [->|(a' & -> & <-)]; [by left|right].
      by exists a'.
Qed.

Lemma newline_eqb c : char_eqb c newline = false → negb (char_eqb c newline) = true.
Proof. by intros ->. Qed.

Lemma terminated_cons c l :
  char_eqb c newline = false → terminated l → terminated (String c l).
Proof.
  intros Hc (body & -> & Hb). exists (String c body). split; [done|].
  cbn. by rewrite Hc.
Qed.

Lemma open_line_cons c l :
  char_eqb c newline = false → free_of newline l = true → open_line (String c l).
Proof. intros Hc Hl. split; [done|]. cbn. by rewrite Hc. Qed.

Lemma readlines_well_formed s : well_formed (readlines s).
Proof.
  induction s as [|c s IH]; [done|]. cbn [readlines].
  destruct (char_eqb c newline) eqn:Hc.
  - split; [|done]. left. exists "". split; [|done].
    apply char_eqb_eq in Hc as ->. done.
  - destruct (readlines s) as [|l ls]; cbn [well_formed] in *.
    + split; [|done]. right. split; [done|]. by apply open_line_cons.
    + destruct IH as [[Ht|[-> [_ Ho]]] Hwf]; (split; [|done]).
      * left. by apply terminated_cons.
      * right. split; [done|]. by apply open_line_cons.
Qed.

Lemma readlines_terminated body t :
  free_of newline body = true →
  readlines (body +:+ NL +:+ t) = (body +:+ NL) :: readlines t.
Proof.
  induction body as [|c body IH]; [done|].
  cbn [free_of]. intros [Hc Hb]%andb_true_iff.
  rewrite !append_cons. cbn [readlines].
  apply negb_true_iff in Hc. rewrite Hc, (IH Hb). done.
Qed.

Lemma readlines_open l : open_line l → readlines l = [l].
Proof.
  intros [Hne Hfree]. induction l as [|c l IH]; [done|].
  cbn [free_of] in Hfree. apply andb_true_iff in Hfree as [Hc Hl].
  apply negb_true_iff in Hc. cbn [readlines]. rewrite Hc.
  destruct l as [|d l]; [done|]. by rewrite IH.
Qed.

(** Reading back what [writelines] wrote gives the same lines. *)
Lemma readlines_writelines ls :
  well_formed ls → readlines (writelines ls) = ls.
Proof.
  induction ls as [|l ls IH]; [done|]. cbn [well_formed writelines].
  intros [[(body & -> & Hb)|[-> Ho]] Hwf].
  - rewrite append_assoc, readlines_terminated by done. by rewrite IH.
  - cbn [writelines]. rewrite append_nil_r. by apply readlines_open.
Qed.

Lemma line_like_suffix p a : line_like (p +:+ a) → line_like a.
Proof.
  intros [Hfree|(x & Hx & Hfree)].
  - left. rewrite free_of_append in Hfree. by apply andb_true_iff in Hfree as [_ ?].
  - apply append_ends_newline in Hx as [->|(a' & -> & <-)]; [by left|right].
    exists a'. split; [done|].
    rewrite free_of_append in Hfree. by apply andb_true_iff in Hfree as [_ ?].
Qed.

Lemma line_like_strip s : line_like s → free_of newline (strip s) = true.
Proof.
  intros [Hfree|(x & -> & Hfree)]; [by apply free_of_strip|].
  rewrite strip_append_newline. by apply free_of_strip.
Qed.

Lemma well_formed_line_like ls l : well_formed ls → l ∈ ls → line_like l.
Proof.
  induction ls as [|l' ls IH]; [by intros _ ?%elem_of_nil|].
  cbn [well_formed]. intros [Hl Hwf] [->|Hin]%elem_of_cons; [|by apply IH].
  destruct Hl as [(body & -> & Hb)|[_ [_ Ho]]]; [right; by eexists|by left].
Qed.

Lemma find_char_before c s b a :
  find (String c "") s = Some (b, a) → free_of c b = true.
Proof.
  revert b. induction s as [|x s IH]; intros b; rewrite find_unfold;
    cbn [strip_prefix]; [done|].
  destruct (char_eqb c x) eqn:Hcx; [by intros [= <- <-]|].
  destruct (find (String c "") s) as [[u v]|]; [|done].
  intros [= <- <-]. cbn [free_of]. rewrite (IH u eq_refl), andb_true_r.
  apply negb_true_iff. rewrite <- Hcx. unfold char_eqb. apply Ascii.eqb_sym.
Qed.

Lemma find_char_none c s :
  find (String c "") s = None → free_of c s = true.
Proof.
  induction s as [|x s IH]; [done|]. rewrite find_unfold. cbn [strip_prefix].
  destruct (char_eqb c x) eqn:Hcx; [done|].
  destruct (find (String c "") s) as [[u v]|]; [done|]. intros _.
  cbn [free_of]. rewrite IH, andb_true_r by done.
  apply negb_true_iff. rewrite <- Hcx. unfold char_eqb. apply Ascii.eqb_sym.
Qed.

Lemma find_char_shorter c s b a :
  find (String c "") s = Some (b, a) → String.length a < String.length s.
Proof.
  intros ->%find_spec. rewrite !length_append. cbn. lia.
Qed.

Lemma split_max_free c n s :
  String.length s ≤ n →
  Forall (λ p, free_of c p = true) (split_max n (String c "") s).
Proof.
  revert s. induction n as [|n IH]; intros s Hn; cbn [split_max].
  - destruct s; [|cbn in Hn; lia]. by repeat constructor.
  - destruct (find (String c "") s) as [[b a]|] eqn:Hf.
    + constructor; [by eapply find_char_before|].
      apply IH. apply find_char_shorter in Hf. lia.
    + repeat constructor. by apply find_char_none.
Qed.

Lemma split_free c s : Forall (λ p, free_of c p = true) (split (String c "") s).
Proof. by apply split_max_free. Qed.

(** Every value of the installed map is a trimmed line of the freeze
    output that carries the marker. *)
Lemma installed_packages_values freeze_stdout name full_spec :
  installed_packages freeze_stdout !! name = Some full_spec →
  ∃ line, line ∈ split NL (strip freeze_stdout) ∧ full_spec = strip line.
Proof.
  unfold installed_packages.
  generalize (split NL (strip freeze_stdout)). intros ls.
  assert (Hgen : ∀ d : gmap string string,
    (∀ k v, d !! k = Some v → ∃ line, line ∈ ls ∧ v = strip line) →
    ∀ ls', ls' ⊆ ls →
    ∀ k v,
      foldl (λ (d : gmap string string) line,
               let full_spec := strip line in
               if contains "==" full_spec then
                 let name := default "" (head (split "==" full_spec)) in
                 match name with
                 | "" => d
                 | _ => <[lower name := full_spec]> d
                 end
               else d) d ls' !! k = Some v →
      ∃ line, line ∈ ls ∧ v = strip line).
  { intros d Hd ls'. revert d Hd.
    induction ls' as [|l ls' IH]; intros d Hd Hsub k v; cbn [foldl]; [apply Hd|].
    apply IH; [|set_solver]. intros k' v'.
    destruct (contains "==" (strip l)); [|apply Hd].
    destruct (default "" (head (split "==" (strip l)))); [apply Hd|].
    rewrite lookup_insert. case_decide; [|apply Hd].
    intros [= <-]. exists l. split; [set_solver|done]. }
  apply (Hgen ∅); [|done]. intros k v. by rewrite lookup_empty.
Qed.

Lemma installed_packages_one_line freeze_stdout name full_spec :
  installed_packages freeze_stdout !! name = Some full_spec →
  free_of newline full_spec = true.
Proof.
  intros (line & Hin & ->)%installed_packages_values.
  apply free_of_strip.
  pose proof (split_free newline (strip freeze_stdout)) as Hfree.
  rewrite Forall_forall in Hfree. by apply Hfree.
Qed.

(** A rewritten line is terminated when the line it replaces is
    well-formed and the installed values are single lines. *)
Lemma pin_line_changed_terminated installed line :
  (∀ k v, installed !! k = Some v → free_of newline v = true) →
  line_like line →
  (pin_line installed line).1 ≠ line →
  terminated (pin_line installed line).1.
Proof.
  intros Hv Hline. unfold pin_line. destruct (_ || _); [done|].
  destruct (re_match PACKAGE_REGEX line) as [m|]; [|done].
  destruct (negb _); [|done].
  destruct (installed !! package_name_of m) as [v|] eqn:Hk; [|done].
  intros _. cbn [fst]. apply Hv in Hk. unfold contains.
  destruct (find "#" line) as [[b a]|] eqn:Hf.
  - rewrite (split_once _ _ _ _ Hf). cbn [lookup list_lookup default].
    exists (v +:+ "  # " +:+ strip a). split; [by rewrite !append_assoc|].
    rewrite !free_of_append, Hk. cbn [andb].
    apply line_like_strip. apply find_spec in Hf. subst line.
    rewrite <- append_assoc in Hline. by apply line_like_suffix in Hline.
  - by exists v.
Qed.

Lemma pin_lines_well_formed installed ls :
  (∀ k v, installed !! k = Some v → free_of newline v = true) →
  well_formed ls → well_formed (pin_lines installed ls).
Proof.
  intros Hv. rewrite pin_lines_map.
  induction ls as [|l ls IH]; [done|]. cbn [well_formed fmap list_fmap].
  intros [Hl Hwf]. split; [|by apply IH].
  destruct (decide ((pin_line installed l).1 = l)) as [->|Hne].
  - destruct Hl as [?|[-> ?]]; [by left|by right].
  - left. apply pin_line_changed_terminated; [done| |done].
    destruct Hl as [(body & -> & Hb)|[_ [_ Ho]]]; [right; by eexists|by left].
Qed.

(** ** The pinning stage on the file *)

Section PinStage.
Variable proc : list string → ProcResult.

(** What the stage leaves in the file system. *)
Lemma pin_dependencies_fs venv w :
  fs (pin_dependencies proc venv w).2
  = match fs w !! [REQUIREMENTS_FILE] with
    | Some (Regular text) =>
        if needs_pinning (readlines text) then
          match proc [path_str venv; "-m"; "pip"; "freeze"] with
          | Completed out =>
              <[ [REQUIREMENTS_FILE] :=
                   Regular (writelines (pin_lines (installed_packages out)
                                          (readlines text))) ]> (fs w)
          | _ => fs w
          end
        else fs w
    | _ => fs w
    end.
Proof.
  destruct w as [f0 i0 c0 k0]. cbn [fs].
  unfold pin_dependencies.
  unfold bind at 1. unfold print at 1. cbn [fst snd].
  unfold bind at 1. unfold try_except at 1. unfold bind at 1. unfold read_text at 1.
  cbn [fst snd console calls fs stdin set_console].
  destruct (f0 !! [REQUIREMENTS_FILE]) as [[text|]|] eqn:Hroot; [|done..].
  cbn [ret fst snd].
  destruct (needs_pinning (readlines text)); cbn [negb]; [|done].
  unfold bind at 1. unfold print at 1. cbn [fst snd].
  unfold bind at 1. rewrite run_command_run.
  destruct (proc [path_str venv; "-m"; "pip"; "freeze"]) as [|rc o e|out];
    [done|done|].
  cbn [stdout fst snd]. unfold pin_lines.
  destruct (pin_loop (installed_packages out) (readlines text) [] [])
    as [new_lines printed].
  unfold bind at 1. rewrite print_all_run. cbn [fst snd].
  unfold bind at 1. unfold open_w at 1.
  cbn [fst snd console calls fs stdin set_console set_calls set_fs].
  rewrite Hroot.
  unfold bind at 1. unfold write at 1.
  cbn [fst snd console calls fs stdin set_console set_calls set_fs].
  rewrite lookup_insert_eq. unfold bind, print.
  cbn [fst snd console calls fs stdin set_console set_calls set_fs].
  by rewrite insert_insert_eq.
Qed.

(** Running the stage again leaves the files as the first run left them. *)
Lemma pin_dependencies_twice venv w :
  fs (pin_dependencies proc venv (pin_dependencies proc venv w).2).2
  = fs (pin_dependencies proc venv w).2.
Proof.
  rewrite (pin_dependencies_fs venv (pin_dependencies proc venv w).2).
  rewrite (pin_dependencies_fs venv w).
  destruct (fs w !! [REQUIREMENTS_FILE]) as [[text|]|] eqn:Hroot;
    [|by rewrite Hroot..].
  destruct (needs_pinning (readlines text)) eqn:Hneeds;
    [|by rewrite Hroot, Hneeds].
  destruct (proc [path_str venv; "-m"; "pip"; "freeze"]) as [|rc o e|out] eqn:Hp;
    [by rewrite Hroot, Hneeds|by rewrite Hroot, Hneeds|].
  rewrite lookup_insert_eq.
  rewrite readlines_writelines.
  2:{ apply pin_lines_well_formed; [|apply readlines_well_formed].
      intros k v. apply installed_packages_one_line. }
  rewrite (pin_lines_idempotent_for (installed_packages out)).
  2:{ intros k v. apply installed_packages_pinned. }
  rewrite insert_insert_eq.
  by destruct (needs_pinning (pin_lines _ _)).
Qed.
End PinStage.

(** What the stage leaves in the root manifest, as lines. *)
Lemma pin_dependencies_lines (proc : list string → ProcResult) venv w text :
  fs w !! [REQUIREMENTS_FILE] = Some (Regular text) →
  ∃ text', fs (pin_dependencies proc venv w).2 !! [REQUIREMENTS_FILE]
           = Some (Regular text') ∧
           (readlines text' = readlines text ∨
            ∃ out, proc [path_str venv; "-m"; "pip"; "freeze"] = Completed out ∧
                   readlines text'
                   = pin_lines (installed_packages out) (readlines text)).
Proof.
  intros Hroot. rewrite pin_dependencies_fs, Hroot.
  destruct (needs_pinning (readlines text)); [|by eauto].
  destruct (proc [path_str venv; "-m"; "pip"; "freeze"]) as [|rc o e|out] eqn:Hp;
    [by eauto|by eauto|].
  eexists. split; [apply lookup_insert_eq|]. right. exists out. split; [done|].
  apply readlines_writelines, pin_lines_well_formed; [|apply readlines_well_formed].
  intros k v. apply installed_packages_one_line.
Qed.

(** C5.  Pinning is idempotent.  With the installed map that one
    [pip freeze] output gives, and more generally with any map whose
    values carry the marker [==], rewriting the lines a second time changes
    nothing; and running the stage again, with the environment answering as
    before, leaves every file as the first run left it. *)
Theorem pinning_idempotent :
  (∀ (freeze_stdout : string) (original_lines : list string),
     let installed := installed_packages freeze_stdout in
     pin_lines installed (pin_lines installed original_lines)
     = pin_lines installed original_lines) ∧
  (∀ (installed : gmap string string) (original_lines : list string),
     (∀ name full_spec, installed !! name = Some full_spec →
                        contains "==" full_spec = true) →
     pin_lines installed (pin_lines installed original_lines)
     = pin_lines installed original_lines) ∧
  (∀ (proc : list string → ProcResult) (venv : list string) (w : World),
     fs (pin_dependencies proc venv (pin_dependencies proc venv w).2).2
     = fs (pin_dependencies proc venv w).2).
Proof.
  split; [|split].
  - intros freeze_stdout ls installed. apply pin_lines_idempotent_for.
    intros k v. apply installed_packages_pinned.
  - intros installed ls Hv. by apply pin_lines_idempotent_for.
  - intros proc venv w. apply pin_dependencies_twice.
Qed.

(** ** The normalised package name *)

Lemma lower_append a b : lower (a +:+ b) = lower a +:+ lower b.
Proof.
  induction a as [|c a IH]; [done|]. rewrite append_cons. cbn.
  by rewrite IH, append_cons.
Qed.

Lemma lower_name_not_bracket c :
  name_char c = true → char_eqb (lower_char c) "[" = false.
Proof. destruct c as [[] [] [] [] [] [] [] []]; by vm_compute. Qed.

Lemma span_name_lower_free s :
  free_of "[" (lower (span name_char s).1) = true.
Proof.
  induction s as [|c s IH]; [done|]. cbn [span].
  destruct (name_char c) eqn:Hc; [|done].
  destruct (span name_char s) as [a b]. cbn [fst lower free_of] in *.
  by rewrite (lower_name_not_bracket c Hc), IH.
Qed.

Lemma find_free_none c s : free_of c s = true → find (String c "") s = None.
Proof.
  induction s as [|x s IH]; [done|]. cbn [free_of].
  intros [Hx Hs]%andb_true_iff. rewrite find_unfold. cbn [strip_prefix].
  apply negb_true_iff in Hx. unfold char_eqb in *.
  rewrite Ascii.eqb_sym, Hx. by rewrite IH.
Qed.

Lemma find_free_first c b a :
  free_of c b = true → find (String c "") (b +:+ String c a) = Some (b, a).
Proof.
  induction b as [|x b IH].
  - intros _. rewrite append_nil_l, find_unfold. cbn [strip_prefix].
    by rewrite char_eqb_refl.
  - cbn [free_of]. intros [Hx Hb]%andb_true_iff.
    rewrite append_cons, find_unfold. cbn [strip_prefix].
    apply negb_true_iff in Hx. unfold char_eqb in *.
    rewrite Ascii.eqb_sym, Hx. by rewrite IH.
Qed.

Lemma split_head_free c b :
  free_of c b = true → head (split (String c "") b) = Some b.
Proof.
  intros Hb. unfold split. destruct (String.length b); cbn [split_max]; [done|].
  by rewrite find_free_none.
Qed.

Lemma split_head_first c b a :
  free_of c b = true → head (split (String c "") (b +:+ String c a)) = Some b.
Proof.
  intros Hb. unfold split. rewrite length_append. cbn [String.length].
  rewrite Nat.add_succ_r. cbn [split_max]. by rewrite find_free_first.
Qed.

Lemma extras_suffix_shape rest :
  extras_suffix rest = "" ∨ ∃ t, extras_suffix rest = String "[" t.
Proof.
  unfold extras_suffix. destruct rest as [|c r]; [by left|].
  destruct (is_char "[" c) eqn:Hc; [|by left].
  apply char_eqb_eq in Hc as ->.
  destruct (span extras_char r) as [[|e ex] [|d v]]; try by left.
  destruct (is_char "]" d); [right; by eexists|by left].
Qed.

(** The key the script looks up is the matched name in lower case, the
    bracketed extras left out. *)
Lemma package_name_of_match line m :
  re_match PACKAGE_REGEX line = Some m →
  package_name_of m = lower (matched_name line) ∧ matched_name line ≠ "".
Proof.
  rewrite re_match_PACKAGE_REGEX. unfold match_direct, matched_name.
  pose proof (span_name_lower_free (lstrip line)) as Hfree.
  destruct (span name_char (lstrip line)) as [[|c nm] rest]; [done|].
  intros [= <-]. split; [|done]. cbn [fst] in *.
  unfold package_name_of, group1. cbn [default from_option]. unfold id.
  rewrite lower_append.
  destruct (extras_suffix_shape rest) as [->|[t ->]].
  - cbn [lower]. rewrite append_nil_r. by rewrite split_head_free.
  - cbn [lower]. replace (lower_char "[") with "["%char by by vm_compute.
    by rewrite split_head_first.
Qed.

(** * The claims about the pinner and the upgrade filter *)

Lemma unpinned_matches line :
  unpinned line = true →
  ∃ m, re_match PACKAGE_REGEX line = Some m ∧ contains "==" line = false.
Proof.
  unfold unpinned. destruct (re_match PACKAGE_REGEX line) as [m|]; [|done].
  intros H%negb_true_iff. eauto.
Qed.

(** C2.  Rewriting keeps the number of lines, and a line that is not an
    unpinned dependency specifier (it is blank, a full-line comment,
    carries the marker [==], or does not match the package pattern) is
    found unchanged at the same position of the output.  The same holds of
    the root manifest before and after the stage, read as lines. *)
Theorem pin_lines_frame :
  (∀ (installed : gmap string string) (original_lines : list string),
     length (pin_lines installed original_lines) = length original_lines) ∧
  (∀ line, strip line = "" ∨ startswith "#" (strip line) = true
           ∨ contains "==" line = true
           ∨ re_match PACKAGE_REGEX line = None →
           unpinned line = false) ∧
  (∀ (installed : gmap string string) (original_lines : list string) i line,
     original_lines !! i = Some line →
     unpinned line = false →
     pin_lines installed original_lines !! i = Some line) ∧
  (∀ (proc : list string → ProcResult) venv w text,
     fs w !! [REQUIREMENTS_FILE] = Some (Regular text) →
     ∃ text',
       fs (pin_dependencies proc venv w).2 !! [REQUIREMENTS_FILE]
       = Some (Regular text') ∧
       length (readlines text') = length (readlines text) ∧
       ∀ i line, readlines text !! i = Some line →
                 unpinned line = false →
                 readlines text' !! i = Some line).
Proof.
  assert (Hkeep : ∀ (installed : gmap string string) ls i line,
            ls !! i = Some line → unpinned line = false →
            pin_lines installed ls !! i = Some line).
  { intros installed ls i line Hi Hu.
    rewrite pin_lines_map, list_lookup_fmap, Hi. cbn.
    by rewrite pin_line_keeps. }
  split; [|split; [|split]].
  - intros installed ls. by rewrite pin_lines_map, length_fmap.
  - intros line [H|[H|[H|H]]].
    + apply unpinned_blank_or_comment. by rewrite bool_decide_eq_true_2.
    + apply unpinned_blank_or_comment. rewrite H. by destruct (bool_decide _).
    + by apply unpinned_marker.
    + by apply unpinned_no_match.
  - exact Hkeep.
  - intros proc venv w text Hroot.
    destruct (pin_dependencies_lines proc venv w text Hroot)
      as (text' & Hroot' & [Hsame|(out & _ & Hpin)]);
      exists text'; (split; [done|]).
    + by rewrite Hsame.
    + rewrite Hpin, pin_lines_map, length_fmap. split; [done|].
      intros i line Hi Hu. rewrite <- pin_lines_map. by apply Hkeep.
Qed.

(** C3.  An unpinned line whose matched name, lower-cased and without
    extras, is a key of the installed map is replaced by the mapped
    specifier; when the line has a [#], the text after the first one,
    trimmed, follows after ["  # "]; the new line ends with a line
    terminator.  That name is the key the script computes.  The
    specification's example closes the statement, on the list of lines and
    on a root manifest that holds the one line. *)
Theorem pin_lines_pins_installed :
  (∀ (installed : gmap string string) (original_lines : list string)
     (i : nat) (line pinned_version : string),
     original_lines !! i = Some line →
     unpinned line = true →
     installed !! lower (matched_name line) = Some pinned_version →
     pin_lines installed original_lines !! i
     = Some (match find "#" line with
             | Some (_, comment) =>
                 pinned_version +:+ "  # " +:+ strip comment +:+ NL
             | None => pinned_version +:+ NL
             end)) ∧
  (∀ line m, re_match PACKAGE_REGEX line = Some m →
             package_name_of m = lower (matched_name line)) ∧
  pin_lines {[ "requests" := "requests==2.31.0" ]}
    ["  requests  # pinned above"]
  = ["requests==2.31.0  # pinned above" +:+ NL] ∧
  fs (pin_dependencies example_proc PYTHON_VENV_EXECUTABLE
        (one_line_world "  requests  # pinned above")).2 !! [REQUIREMENTS_FILE]
  = Some (Regular ("requests==2.31.0  # pinned above" +:+ NL)).
Proof.
  split; [|split; [|by vm_compute]].
  - intros installed ls i line v Hi (m & Hm & Hu)%unpinned_matches Hv.
    rewrite pin_lines_map, list_lookup_fmap, Hi.
    cbn [fmap option_fmap option_map]. f_equal.
    destruct (package_name_of_match _ _ Hm) as [Hname _].
    rewrite <- Hname in Hv.
    rewrite (pin_line_found _ _ _ _ Hm Hu Hv). unfold contains.
    destruct (find "#" line) as [[b a]|] eqn:Hf; [|done].
    by rewrite (split_once _ _ _ _ Hf).
  - intros line m Hm. by apply package_name_of_match.
Qed.

(** C4.  An unpinned line whose matched name, lower-cased and without
    extras, is not a key of the installed map is left as it is. *)
Theorem pin_lines_absent_unchanged (installed : gmap string string)
    (original_lines : list string) (i : nat) (line : string) :
  original_lines !! i = Some line →
  unpinned line = true →
  installed !! lower (matched_name line) = None →
  pin_lines installed original_lines !! i = Some line.
Proof.
  intros Hi (m & Hm & Hu)%unpinned_matches Hv.
  rewrite pin_lines_map, list_lookup_fmap, Hi. cbn.
  destruct (package_name_of_match _ _ Hm) as [Hname _].
  rewrite <- Hname in Hv. by rewrite (pin_line_absent _ _ _ Hm Hv).
Qed.

(** C10.  The marker [==] anywhere in a line, even only inside its
    comment, makes the line count as pinned: it is never rewritten.  The
    line [requests  # pin == later] stays, although its name is
    [requests] and the installed map may hold that key; a manifest that
    holds only this line makes the stage report that everything is
    pinned. *)
Theorem marker_anywhere_keeps_line :
  (∀ (installed : gmap string string) (original_lines : list string)
     (i : nat) (line : string),
     original_lines !! i = Some line →
     contains "==" line = true →
     unpinned line = false ∧
     pin_lines installed original_lines !! i = Some line) ∧
  (∀ installed : gmap string string,
     pin_lines installed ["requests  # pin == later"]
     = ["requests  # pin == later"]) ∧
  matched_name "requests  # pin == later" = "requests" ∧
  contains "==" "requests  " = false ∧
  pin_dependencies example_proc PYTHON_VENV_EXECUTABLE
    (one_line_world ("requests  # pin == later" +:+ NL))
  = (Ret (),
     set_console
       ["> Checking for unpinned dependencies in requirements.txt..." +:+ NL;
        "> NOTE: All dependencies are already pinned." +:+ NL]
       (one_line_world ("requests  # pin == later" +:+ NL))).
Proof.
  assert (Hgen : ∀ (installed : gmap string string) ls i line,
            ls !! i = Some line → contains "==" line = true →
            unpinned line = false ∧ pin_lines installed ls !! i = Some line).
  { intros installed ls i line Hi Hc.
    split; [by apply unpinned_marker|].
    rewrite pin_lines_map, list_lookup_fmap, Hi. cbn.
    by rewrite pin_line_keeps by by apply unpinned_marker. }
  split; [exact Hgen|]. split; [|by vm_compute].
  intros installed.
  apply list_eq. intros [|i].
  - by apply Hgen.
  - by rewrite pin_lines_map.
Qed.

(** C6.  The loop over the outdated list computes what the specification
    describes: the first two lines are skipped, a row counts only when it
    splits on white space into exactly four fields, and the candidates are
    the rows, in order, whose lower-cased name is in the manifest set; the
    set holds the matched name, lower-cased and without extras, of every
    manifest line the package pattern matches. *)
Theorem targeted_upgrades_spec (lines : list string) (list_stdout : string) :
  let reqs := requirements_packages lines in
  targeted_upgrades reqs list_stdout = spec_candidates reqs list_stdout ∧
  (∀ name, name ∈ reqs ↔
           ∃ line, line ∈ lines ∧ is_Some (re_match PACKAGE_REGEX line)
                   ∧ name = lower (matched_name line)) ∧
  (∀ u, u ∈ targeted_upgrades reqs list_stdout ↔
        ∃ row kind, row ∈ drop 2 (split NL (strip list_stdout))
                    ∧ split_ws row = [u.1.1; u.1.2; u.2; kind]
                    ∧ lower u.1.1 ∈ reqs).
Proof.
  intros reqs.
  assert (Heq : targeted_upgrades reqs list_stdout = spec_candidates reqs list_stdout).
  { unfold targeted_upgrades. by rewrite targeted_upgrades_loop_spec. }
  split; [done|]. split.
  - intros name. unfold reqs, requirements_packages.
    rewrite requirements_packages_loop_elem. split.
    + intros [[]%elem_of_empty|(line & m & Hin & Hm & ->)].
      exists line. split; [done|]. split; [by eexists|].
      by apply package_name_of_match.
    + intros (line & Hin & [m Hm] & ->). right. exists line, m.
      split; [done|]. split; [done|]. symmetry. by apply package_name_of_match.
  - intros [[n c] l]. rewrite Heq. unfold spec_candidates, outdated_lines.
    rewrite list_elem_of_fmap. cbn [fst snd]. split.
    + intros ([[[n' c'] l'] k] & [= -> -> ->] & [Hin Hrow]%list_elem_of_filter).
      apply list_elem_of_omap in Hrow as (row & Hr & Hp).
      exists row, k. split; [done|]. split; [|done].
      unfold parse_row in Hp.
      destruct (split_ws row) as [|? [|? [|? [|? [|??]]]]]; congruence.
    + intros (row & k & Hr & Hs & Hin).
      exists (n, c, l, k). split; [done|].
      apply list_elem_of_filter. split; [done|].
      apply list_elem_of_omap. exists row. split; [done|].
      unfold parse_row. by rewrite Hs.
Qed.

(** * The statements at concrete inputs *)

Lemma aggregation_output_witness :
  glob_requirements empty_world = [] ∧
  ∀ msg, (main no_tools empty_world).1 ≠ Raise (FileNotFoundError msg).
Proof.
  split; [reflexivity|].
  apply (proj1 (proj2 aggregation_output) no_tools empty_world);
    [discriminate|reflexivity].
Defined.

Lemma pin_lines_frame_witness :
  unpinned ("# tools" +:+ NL) = false ∧
  pin_lines (installed_packages example_freeze)
    ["requests" +:+ NL; "# tools" +:+ NL] !! 1
  = Some ("# tools" +:+ NL).
Proof.
  split; [reflexivity|].
  apply (proj1 (proj2 (proj2 pin_lines_frame))); reflexivity.
Defined.

Lemma pin_lines_pins_installed_witness :
  unpinned "  requests  # pinned above" = true ∧
  pin_lines {[ "requests" := "requests==2.31.0" ]}
    ["  requests  # pinned above"] !! 0
  = Some ("requests==2.31.0  # pinned above" +:+ NL).
Proof.
  split; [reflexivity|].
  exact (proj1 pin_lines_pins_installed
           {[ "requests" := "requests==2.31.0" ]}
           ["  requests  # pinned above"] 0
           "  requests  # pinned above" "requests==2.31.0"
           eq_refl eq_refl eq_refl).
Defined.

Lemma pin_lines_absent_unchanged_witness :
  unpinned ("numpy>=1.0" +:+ NL) = true ∧
  installed_packages example_freeze !! lower (matched_name ("numpy>=1.0" +:+ NL))
  = None ∧
  pin_lines (installed_packages example_freeze)
    ["requests" +:+ NL; "numpy>=1.0" +:+ NL] !! 1
  = Some ("numpy>=1.0" +:+ NL).
Proof.
  split; [reflexivity|]. split; [reflexivity|].
  apply pin_lines_absent_unchanged; reflexivity.
Defined.

Lemma marker_anywhere_keeps_line_witness :
  contains "==" "requests  # pin == later" = true ∧
  pin_lines {[ "requests" := "requests==2.31.0" ]}
    ["requests  # pin == later"] !! 0
  = Some "requests  # pin == later".
Proof.
  split; [reflexivity|].
  apply (proj1 marker_anywhere_keeps_line); reflexivity.
Defined.

Lemma upgrade_confirmation_witness :
  fs example_world !! [REQUIREMENTS_FILE] = Some (Regular example_manifest) ∧
  targeted_upgrades (requirements_packages (readlines example_manifest))
    example_outdated
  = [("Flask", "2.0.1", "2.3.2")] ∧
  calls (check_for_upgrades example_proc PYTHON_VENV_EXECUTABLE example_world).2
  = [["venv/bin/python"; "-m"; "pip"; "list"; "--outdated"];
     ["venv/bin/python"; "-m"; "pip"; "install"; "--upgrade"; "Flask"]].
Proof.
  split; [reflexivity|]. split; [reflexivity|].
  exact (proj1 (proj2 (proj2 (proj2
           (upgrade_confirmation example_proc PYTHON_VENV_EXECUTABLE
              example_world example_manifest example_outdated
              ("Flask", "2.0.1", "2.3.2") [] eq_refl eq_refl eq_refl))))
           eq_refl).
Defined.

Lemma missing_manifest_skips_failed_command_exits_witness :
  (pin_dependencies no_tools PYTHON_VENV_EXECUTABLE empty_world).1 = Ret () ∧
  (run_command no_tools ["python3.9"; "-m"; "venv"; "venv"] false empty_world).1
  = SysExit 1.
Proof.
  split.
  - exact (f_equal fst
             (proj1 (missing_manifest_skips_failed_command_exits no_tools)
                PYTHON_VENV_EXECUTABLE empty_world eq_refl)).
  - apply (proj1 (proj2 (proj2 (missing_manifest_skips_failed_command_exits no_tools)))).
    by left.
Defined.

Lemma root_manifest_exists_after_aggregation_witness :
  ∃ content,
    fs (source_and_combine_requirements empty_world).2 !! [REQUIREMENTS_FILE]
    = Some (Regular content).
Proof.
  apply (proj1 root_manifest_exists_after_aggregation empty_world
           (source_and_combine_requirements empty_world).2).
  reflexivity.
Defined.

Lemma pinning_idempotent_witness :
  let installed : gmap string string := {[ "requests" := "requests==2.31.0" ]} in
  pin_lines installed (pin_lines installed ["requests" +:+ NL; "numpy" +:+ NL])
  = pin_lines installed ["requests" +:+ NL; "numpy" +:+ NL].
Proof.
  intros installed.
  apply (proj1 (proj2 pinning_idempotent)).
  intros name full_spec H.
  destruct (decide (name = "requests")) as [->|Hne].
  - unfold installed in H. rewrite lookup_singleton_eq in H.
    injection H as <-. reflexivity.
  - unfold installed in H. rewrite lookup_singleton_ne in H by done.
    discriminate H.
Defined.

Lemma targeted_upgrades_spec_witness :
  ("Flask", "2.0.1", "2.3.2")
    ∈ targeted_upgrades (requirements_packages (readlines example_manifest))
        example_outdated.
Proof.
  apply (proj2 (proj2 (targeted_upgrades_spec (readlines example_manifest)
                         example_outdated))).
  exists "Flask 2.0.1 2.3.2 wheel", "wheel".
  split; [|split].
  - vm_compute. apply list_elem_of_here.
  - reflexivity.
  - apply (proj1 (proj2 (targeted_upgrades_spec (readlines example_manifest)
                           example_outdated))).
    exists example_manifest. split; [|split].
    + vm_compute. apply list_elem_of_here.
    + by eexists.
    + reflexivity.
Defined.

(** * Further properties of the code *)

(** ** The package pattern *)

(** X1.  [PACKAGE_REGEX] matches a line exactly when the first character
    after its leading white space is a name character; the captured group
    is then set and begins with the run of name characters. *)
Theorem package_regex_matches_iff (line : string) :
  (is_Some (re_match PACKAGE_REGEX line) ↔
   ∃ c rest, lstrip line = String c rest ∧ name_char c = true) ∧
  (∀ m, re_match PACKAGE_REGEX line = Some m →
        ∃ suffix, m = Some (matched_name line +:+ suffix) ∧
                  matched_name line ≠ "" ∧
                  (suffix = "" ∨ ∃ t, suffix = String "[" t)).
Proof.
  rewrite re_match_PACKAGE_REGEX. unfold match_direct, matched_name. split.
  - split.
    + intros [m Hm]. destruct (lstrip line) as [|c rest]; [done|].
      cbn [span] in Hm. destruct (name_char c) eqn:Hc; [by eauto|done].
    + intros (c & rest & -> & Hc). cbn [span]. rewrite Hc.
      destruct (span name_char rest). by eexists.
  - intros m. destruct (span name_char (lstrip line)) as [[|c nm] rest]; [done|].
    intros [= <-]. exists (extras_suffix rest). split; [done|]. split; [done|].
    apply extras_suffix_shape.
Qed.

(** ** Child processes and the environment *)

Section MoreRuns.
Variable proc : list string → ProcResult.




End MoreRuns.

(** ** More on the pinning stage *)


Section MorePinning.
Variable proc : list string → ProcResult.

(** How the stage ends and what it leaves of files, input and child
    processes. *)
Lemma pin_dependencies_effect venv w :
  ∃ c,
    pin_dependencies proc venv w
    = match fs w !! [REQUIREMENTS_FILE] with
      | None => (Ret (), mkWorld (fs w) (stdin w) c (calls w))
      | Some Directory =>
          (Raise IsADirectoryError, mkWorld (fs w) (stdin w) c (calls w))
      | Some (Regular text) =>
          if needs_pinning (readlines text) then
            match proc [path_str venv; "-m"; "pip"; "freeze"] with
            | Completed out =>
                (Ret (),
                 mkWorld
                   (<[ [REQUIREMENTS_FILE] :=
                         Regular (writelines (pin_lines (installed_packages out)
                                                (readlines text))) ]> (fs w))
                   (stdin w) c
                   (calls w ++ [[path_str venv; "-m"; "pip"; "freeze"]]))
            | _ =>
                (SysExit 1,
                 mkWorld (fs w) (stdin w) c
                   (calls w ++ [[path_str venv; "-m"; "pip"; "freeze"]]))
            end
          else (Ret (), mkWorld (fs w) (stdin w) c (calls w))
      end.
Proof.
  destruct w as [f0 i0 c0 k0]. cbn [fs stdin calls].
  unfold pin_dependencies.
  unfold bind at 1. unfold print at 1. cbn [fst snd].
  unfold bind at 1. unfold try_except at 1. unfold bind at 1. unfold read_text at 1.
  cbn [fst snd console calls fs stdin set_console].
  destruct (f0 !! [REQUIREMENTS_FILE]) as [[text|]|] eqn:Hroot;
    [|by eexists..].
  cbn [ret fst snd].
  destruct (needs_pinning (readlines text)); cbn [negb]; [|by eexists].
  unfold bind at 1. unfold print at 1. cbn [fst snd].
  unfold bind at 1. rewrite run_command_run.
  destruct (proc [path_str venv; "-m"; "pip"; "freeze"]) as [|rc o e|out];
    [by eexists|by eexists|].
  cbn [stdout fst snd]. unfold pin_lines.
  destruct (pin_loop (installed_packages out) (readlines text) [] [])
    as [new_lines printed].
  unfold bind at 1. rewrite print_all_run. cbn [fst snd].
  unfold bind at 1. unfold open_w at 1.
  cbn [fst snd console calls fs stdin set_console set_calls set_fs].
  rewrite Hroot.
  unfold bind at 1. unfold write at 1.
  cbn [fst snd console calls fs stdin set_console set_calls set_fs].
  rewrite lookup_insert_eq. unfold bind, print.
  cbn [fst snd console calls fs stdin set_console set_calls set_fs].
  rewrite insert_insert_eq. by eexists.
Qed.

(** X4.  When no line of the root manifest is unpinned, the stage does
    nothing but report it: no child process is started ([pip freeze] is
    not asked), and the world is the one it found, two console lines
    apart. *)
Theorem pin_dependencies_nothing_to_pin venv w text :
  fs w !! [REQUIREMENTS_FILE] = Some (Regular text) →
  (∀ line, line ∈ readlines text → unpinned line = false) →
  pin_dependencies proc venv w
  = (Ret (),
     set_console
       (console w
          ++ ["> Checking for unpinned dependencies in requirements.txt..." +:+ NL;
              "> NOTE: All dependencies are already pinned." +:+ NL]) w).
Proof.
  intros Hroot Hnone.
  assert (Hneeds : needs_pinning (readlines text) = false).
  { destruct (needs_pinning (readlines text)) eqn:Hn; [|done].
    apply needs_pinning_unpinned in Hn as (line & Hin & Hu).
    rewrite (Hnone line Hin) in Hu. discriminate. }
  unfold pin_dependencies, bind, try_except, read_text, print, ret.
  cbn [fst snd console calls fs stdin set_console]. rewrite Hroot.
  cbn [fst snd]. rewrite Hneeds.
  cbn [negb fst snd console calls fs stdin set_console].
  by rewrite <- app_assoc.
Qed.

(** X5.  The footprint of the stage.  It never reads the input, changes
    no path but the root manifest, and starts at most one child process,
    [pip freeze], which happens exactly when the manifest is a regular file
    with an unpinned line.  When it does not return, the files are as it
    found them: a failing [pip freeze] never costs the manifest. *)
Theorem pin_dependencies_footprint venv w :
  let r := pin_dependencies proc venv w in
  let freeze := [path_str venv; "-m"; "pip"; "freeze"] in
  stdin r.2 = stdin w ∧
  (∀ p, p ≠ [REQUIREMENTS_FILE] → fs r.2 !! p = fs w !! p) ∧
  (calls r.2 = calls w ++ [freeze] ∧
   (∃ text line, fs w !! [REQUIREMENTS_FILE] = Some (Regular text) ∧
                 line ∈ readlines text ∧ unpinned line = true)
   ∨ calls r.2 = calls w ∧
     ¬ (∃ text line, fs w !! [REQUIREMENTS_FILE] = Some (Regular text) ∧
                     line ∈ readlines text ∧ unpinned line = true)) ∧
  (r.1 ≠ Ret () → fs r.2 = fs w).
Proof.
  intros r freeze. unfold r.
  destruct (pin_dependencies_effect venv w) as [c ->]. fold freeze.
  destruct (fs w !! [REQUIREMENTS_FILE]) as [[text|]|] eqn:Hroot.
  - destruct (needs_pinning (readlines text)) eqn:Hn.
    + apply needs_pinning_unpinned in Hn as (line & Hin & Hu).
      destruct (proc freeze) as [|rc o e|out]; cbn [fst snd fs stdin calls];
        (split; [done|]);
        (split; [by intros p Hp; rewrite ?lookup_insert_ne by done|]);
        (split; [left; split; [done|]; by exists text, line|]); done.
    + cbn [fst snd fs stdin calls]. split; [done|]. split; [done|].
      split; [|done]. right. split; [done|].
      intros (text' & line & [= <-] & Hin & Hu).
      assert (needs_pinning (readlines text) = true) as Hyes
        by (apply needs_pinning_unpinned; eauto).
      congruence.
  - cbn [fst snd fs stdin calls]. split; [done|]. split; [done|].
    split; [|done]. right. split; [done|]. by intros (? & ? & ? & _).
  - cbn [fst snd fs stdin calls]. split; [done|]. split; [done|].
    split; [|done]. right. split; [done|]. by intros (? & ? & ? & _).
Qed.

End MorePinning.

(** X6.  After the rewrite, with an installed map whose values carry the
    marker [==] (as every map built from [pip freeze] does), the only
    lines still unpinned are those whose package is not installed. *)
Theorem pin_lines_leaves_only_absent (installed : gmap string string)
    (original_lines : list string) (line : string) :
  (∀ name full_spec, installed !! name = Some full_spec →
                     contains "==" full_spec = true) →
  line ∈ pin_lines installed original_lines →
  unpinned line = true →
  installed !! lower (matched_name line) = None ∧ line ∈ original_lines.
Proof.
  intros Hv Hin Hu. rewrite pin_lines_map in Hin.
  apply list_elem_of_fmap in Hin as (l & -> & Hl).
  destruct (decide ((pin_line installed l).1 = l)) as [He|Hne].
  - rewrite He in *. split; [|done].
    destruct (unpinned_matches _ Hu) as (m & Hm & Hc).
    destruct (package_name_of_match _ _ Hm) as [<- _].
    destruct (installed !! package_name_of m) as [v|] eqn:Hk; [|done].
    pose proof (pin_line_found _ _ _ _ Hm Hc Hk) as Hnew. rewrite He in Hnew.
    assert (Hmark : contains "==" l = true).
    { rewrite Hnew. destruct (contains "#" l); apply contains_append; eauto. }
    congruence.
  - apply pin_line_changed in Hne as (k & v & rest & Hk & Hnew).
    rewrite Hnew in Hu.
    rewrite (unpinned_marker (v +:+ rest)) in Hu; [done|].
    apply contains_append. eauto.
Qed.

Lemma pin_lines_leaves_only_absent_witness :
  "numpy" +:+ NL ∈ pin_lines (installed_packages example_freeze)
                     ["requests" +:+ NL; "numpy" +:+ NL] ∧
  installed_packages example_freeze !! lower (matched_name ("numpy" +:+ NL)) = None.
Proof.
  assert (Hin : "numpy" +:+ NL ∈ pin_lines (installed_packages example_freeze)
                                   ["requests" +:+ NL; "numpy" +:+ NL]).
  { vm_compute. apply list_elem_of_further, list_elem_of_here. }
  split; [exact Hin|].
  exact (proj1 (pin_lines_leaves_only_absent (installed_packages example_freeze)
                  ["requests" +:+ NL; "numpy" +:+ NL] ("numpy" +:+ NL)
                  (installed_packages_pinned example_freeze) Hin eq_refl)).
Defined.

Section SameContent.
Variable proc : list string → ProcResult.



End SameContent.


(** ** More on the installed-package map *)

Lemma lower_char_idempotent c : lower_char (lower_char c) = lower_char c.
Proof. destruct c as [[] [] [] [] [] [] [] []]; by vm_compute. Qed.

Lemma lower_idempotent s : lower (lower s) = lower s.
Proof.
  induction s as [|c s IH]; [done|]. cbn. by rewrite lower_char_idempotent, IH.
Qed.

Lemma installed_packages_fold freeze_stdout :
  installed_packages freeze_stdout
  = list_to_map (reverse (omap freeze_entry (split NL (strip freeze_stdout)))).
Proof.
  unfold installed_packages. generalize (split NL (strip freeze_stdout)).
  intros ls. unfold list_to_map. generalize (∅ : gmap string string).
  induction ls as [|l ls IH]; intros d; [done|].
  cbn [foldl omap list_omap]. rewrite IH. unfold freeze_entry at 2.
  destruct (contains "==" (strip l)); [|done].
  destruct (default "" (head (split "==" (strip l)))) as [|c name]; [done|].
  by rewrite reverse_cons, foldr_app.
Qed.

(** X8.  The installed map, entry by entry.  Each key is the lower-cased
    text before the first [==] of its value, is in lower case and is not
    empty; each value is a trimmed line of the freeze output that carries
    [==].  When several lines give the same key, the last one wins. *)
Theorem installed_packages_entries (freeze_stdout : string) :
  let installed := installed_packages freeze_stdout in
  let lines := split NL (strip freeze_stdout) in
  (∀ name full_spec,
     installed !! name = Some full_spec →
     name = lower (default "" (head (split "==" full_spec))) ∧
     lower name = name ∧ name ≠ "" ∧
     contains "==" full_spec = true ∧
     ∃ line, line ∈ lines ∧ full_spec = strip line) ∧
  (∀ before line after name full_spec,
     lines = before ++ line :: after →
     freeze_entry line = Some (name, full_spec) →
     (∀ later, later ∈ after → fst <$> freeze_entry later ≠ Some name) →
     installed !! name = Some full_spec) ∧
  (∀ name, installed !! name = None ↔
           ∀ line, line ∈ lines → fst <$> freeze_entry line ≠ Some name).
Proof.
  intros installed lines. unfold installed. rewrite installed_packages_fold.
  fold lines.
  assert (Hentry : ∀ line name full_spec,
            freeze_entry line = Some (name, full_spec) →
            name = lower (default "" (head (split "==" full_spec))) ∧
            lower name = name ∧ name ≠ "" ∧
            contains "==" full_spec = true ∧ full_spec = strip line).
  { intros line name full_spec. unfold freeze_entry.
    destruct (contains "==" (strip line)) eqn:Hc; [|done].
    destruct (default "" (head (split "==" (strip line)))) as [|c nm] eqn:Hn; [done|].
    intros [= <- <-]. rewrite Hn. split; [done|].
    split; [apply (lower_idempotent (String c nm))|]. done. }
  split; [|split].
  - intros name full_spec Hl.
    apply elem_of_list_to_map_2 in Hl.
    apply elem_of_reverse, list_elem_of_omap in Hl as (line & Hin & He).
    destruct (Hentry _ _ _ He) as (? & ? & ? & ? & ?).
    repeat split; try done. by exists line.
  - intros before line after name full_spec Hlines He Hlater.
    rewrite Hlines, omap_app. cbn [omap list_omap]. rewrite He.
    rewrite reverse_app, reverse_cons, <- app_assoc.
    rewrite list_to_map_app. apply lookup_union_Some_raw. right. split.
    + apply not_elem_of_list_to_map_1.
      intros ([k v] & Hk & Hin)%list_elem_of_fmap. cbn in Hk. subst k.
      apply elem_of_reverse, list_elem_of_omap in Hin as (later & Hin & Hlate).
      apply (Hlater later Hin). by rewrite Hlate.
    + cbn. apply lookup_insert_eq.
  - intros name. split.
    + intros Hnone line Hin Hfe.
      destruct (freeze_entry line) as [[k v]|] eqn:He; [|done].
      injection Hfe as ->.
      apply not_elem_of_list_to_map_2 in Hnone. apply Hnone.
      apply list_elem_of_fmap. exists (name, v). split; [done|].
      apply elem_of_reverse, list_elem_of_omap. by exists line.
    + intros Hall. apply not_elem_of_list_to_map_1.
      intros ([k v] & Hk & Hin)%list_elem_of_fmap. cbn in Hk. subst k.
      apply elem_of_reverse, list_elem_of_omap in Hin as (line & Hin & He).
      apply (Hall line Hin). by rewrite He.
Qed.

(** ** More on the upgrade checker *)

(** *** What a call leaves alone *)

Lemma preserves_ret {A B} (part : World → B) (a : A) : preserves part (ret a).
Proof. done. Qed.

Lemma preserves_bind {A A' B} (part : World → B) (m : M A) (k : A → M A') :
  preserves part m → (∀ a, preserves part (k a)) → preserves part (bind m k).
Proof.
  intros Hm Hk w. unfold bind. specialize (Hm w).
  destruct (m w) as [[a|e|c] w']; [|done..].
  cbn in Hm. rewrite <- Hm. apply Hk.
Qed.

Lemma preserves_try {A B} (part : World → B) (body : M A) handler :
  preserves part body →
  (∀ e h, handler e = Some h → preserves part h) →
  preserves part (try_except body handler).
Proof.
  intros Hb Hh w. unfold try_except. specialize (Hb w).
  destruct (body w) as [[a|e|c] w']; [done| |done].
  destruct (handler e) as [h|] eqn:He; [|done].
  cbn in Hb. rewrite <- Hb. by eapply Hh.
Qed.

Section Untouched.
Variable proc : list string → ProcResult.

Lemma run_command_keeps_fs command capture :
  preserves fs (run_command proc command capture).
Proof. intros w. rewrite run_command_run. by destruct (proc command). Qed.

Lemma run_command_keeps_stdin command capture :
  preserves stdin (run_command proc command capture).
Proof. intros w. rewrite run_command_run. by destruct (proc command). Qed.

Ltac keeps_step :=
  lazymatch goal with
  | |- preserves _ (bind _ _) => apply preserves_bind; [|intros ?]
  | |- preserves _ (try_except _ _) => apply preserves_try; [|handler_cases]
  | |- preserves fs (run_command _ _ _) => apply run_command_keeps_fs
  | |- preserves stdin (run_command _ _ _) => apply run_command_keeps_stdin
  | |- preserves _ (print_all _) => intros ?; by rewrite print_all_run
  | |- preserves _ (match ?x with _ => _ end) => destruct x
  | |- preserves _ _ =>
      intros ?;
      unfold print, ret, read_text, is_file, is_dir, open_w, write, input;
      repeat case_match; reflexivity
  end.


Lemma setup_keeps_stdin : preserves stdin (setup_virtual_environment proc).
Proof. unfold setup_virtual_environment. repeat keeps_step. Qed.

Lemma pin_keeps_stdin venv : preserves stdin (pin_dependencies proc venv).
Proof. unfold pin_dependencies. repeat keeps_step. Qed.

Lemma aggregation_keeps_stdin : preserves stdin source_and_combine_requirements.
Proof.
  intros w. rewrite aggregation_run.
  pose proof (read_all_world (sorted (glob_requirements w))
                (set_fs (<[ [REQUIREMENTS_FILE] := Regular "" ]> (fs w))
                   (set_console (found_console w) w))) as Hsame.
  destruct (read_all _ _) as [[cs|e|k] w']; cbn [snd] in Hsame; subst;
    by destruct (fs w !! [REQUIREMENTS_FILE]) as [[c|]|].
Qed.

(** X10.  When no outdated package is one of the manifest's, because the
    list has no data row or because none of its rows names a manifest
    package, the checker asks nothing and reads nothing: it returns after
    the one listing command, with a console message and nothing else
    changed. *)
Theorem check_for_upgrades_nothing_to_upgrade venv w text out :
  fs w !! [REQUIREMENTS_FILE] = Some (Regular text) →
  proc [path_str venv; "-m"; "pip"; "list"; "--outdated"] = Completed out →
  targeted_upgrades (requirements_packages (readlines text)) out = [] →
  check_for_upgrades proc venv w
  = (Ret (),
     mkWorld (fs w) (stdin w)
       (console w
          ++ ["> Checking for package upgrades..." +:+ NL;
              (">> Running command: "
                 +:+ join " " [path_str venv; "-m"; "pip"; "list"; "--outdated"])
                +:+ NL;
              (if (length (outdated_lines out) <=? 2)%nat
               then "> All packages are up to date."
               else "> All packages listed in requirements.txt are up to date.")
                +:+ NL])
       (calls w ++ [[path_str venv; "-m"; "pip"; "list"; "--outdated"]])).
Proof.
  intros Hroot Hlist Htar.
  destruct w as [f0 i0 c0 k0]. cbn [fs stdin console calls] in *.
  unfold check_for_upgrades.
  unfold bind at 1. unfold print at 1. cbn [fst snd].
  unfold bind at 1. unfold try_except at 1. unfold bind at 1. unfold read_text at 1.
  cbn [fst snd console calls fs stdin set_console]. rewrite Hroot.
  cbn [ret fst snd].
  unfold bind at 1. unfold try_except at 1. unfold bind at 1.
  rewrite run_command_run, Hlist. cbn [ret fst snd stdout]. rewrite Htar.
  destruct (length (outdated_lines out) <=? 2)%nat; unfold print;
    cbn [fst snd console calls fs stdin set_console set_calls];
    by rewrite <- !app_assoc.
Qed.

End Untouched.

Lemma check_for_upgrades_nothing_to_upgrade_witness :
  (check_for_upgrades example_proc PYTHON_VENV_EXECUTABLE
     (one_line_world ("numpy==1.0" +:+ NL))).1 = Ret () ∧
  stdin (check_for_upgrades example_proc PYTHON_VENV_EXECUTABLE
           (mkWorld {[ [REQUIREMENTS_FILE] := Regular ("numpy==1.0" +:+ NL) ]}
              ["y"] [] [])).2 = ["y"].
Proof.
  split.
  - exact (f_equal fst
             (check_for_upgrades_nothing_to_upgrade example_proc
                PYTHON_VENV_EXECUTABLE (one_line_world ("numpy==1.0" +:+ NL))
                ("numpy==1.0" +:+ NL) example_outdated eq_refl eq_refl eq_refl)).
  - exact (f_equal (λ r, stdin r.2)
             (check_for_upgrades_nothing_to_upgrade example_proc
                PYTHON_VENV_EXECUTABLE
                (mkWorld {[ [REQUIREMENTS_FILE] := Regular ("numpy==1.0" +:+ NL) ]}
                   ["y"] [] [])
                ("numpy==1.0" +:+ NL) example_outdated eq_refl eq_refl eq_refl)).
Defined.

(** ** More on the aggregation *)

Lemma compare_refl x : String.compare x x = Eq.
Proof.
  induction x as [|c x IH]; [done|]. cbn.
  unfold Ascii.compare. by rewrite N.compare_refl.
Qed.

Lemma compare_lt_trans x y z :
  String.compare x y = Lt → String.compare y z = Lt → String.compare x z = Lt.
Proof.
  intros Hxy Hyz.
  assert (Hle : String.le x z).
  { trans y; unfold String.le, String.leb; [by rewrite Hxy|by rewrite Hyz]. }
  unfold String.le, String.leb in Hle.
  destruct (String.compare x z) eqn:Hxz; [|done|done].
  apply String.compare_eq_iff in Hxz as ->.
  rewrite String.compare_antisym, Hxy in Hyz. done.
Qed.

Lemma compare_gt_trans x y z :
  String.compare x y = Gt → String.compare y z = Gt → String.compare x z = Gt.
Proof.
  intros Hxy Hyz.
  rewrite String.compare_antisym in Hxy, Hyz |- *.
  apply CompOpp_iff in Hxy, Hyz. cbn in Hxy, Hyz.
  by rewrite (compare_lt_trans z y x).
Qed.

Global Instance path_le_trans : Transitive path_le.
Proof.
  unfold path_le. intros a b c. revert a b.
  induction c as [|z c IH]; intros [|x a] [|y b]; cbn; try done.
  destruct (String.compare y x) eqn:Hyx; [|done|];
    destruct (String.compare z y) eqn:Hzy; try done.
  - apply String.compare_eq_iff in Hyx as ->.
    apply String.compare_eq_iff in Hzy as ->.
    rewrite compare_refl. apply IH.
  - apply String.compare_eq_iff in Hyx as ->. by rewrite Hzy.
  - apply String.compare_eq_iff in Hzy as ->. by rewrite Hyx.
  - by rewrite (compare_gt_trans z y x).
Qed.

Global Instance path_le_antisym : AntiSymm (=) path_le.
Proof.
  unfold path_le. intros a. induction a as [|x a IH]; intros [|y b]; cbn; try done.
  rewrite (String.compare_antisym x y).
  destruct (String.compare y x) eqn:Hyx; cbn; try done.
  apply String.compare_eq_iff in Hyx as ->. intros H1 H2. f_equal. by apply IH.
Qed.

Lemma sorted_order_independent_lemma (found found' : list (list string)) :
  Permutation found found' → sorted found = sorted found'.
Proof.
  intros Hperm. apply (Sorted_unique path_le).
  - apply sorted_ordered.
  - apply sorted_ordered.
  - by rewrite !sorted_perm.
Qed.

(** X11.  [sorted] gives the same sequence whatever order the directory
    scan produced the paths in: the result is determined by the paths
    found, and it is the one arrangement of them that is in order. *)
Theorem sorted_order_independent (found found' : list (list string)) :
  Permutation found found' →
  sorted found = sorted found' ∧
  (Sorted path_le found' → sorted found = found').
Proof.
  intros Hperm. split; [by apply sorted_order_independent_lemma|].
  intros Hsorted. apply (Sorted_unique path_le); [apply sorted_ordered|done|].
  by rewrite sorted_perm.
Qed.

Lemma sorted_order_independent_witness :
  sorted [["b"; "requirements.txt"]; ["a-b"; "requirements.txt"];
          ["a"; "requirements.txt"]]
  = sorted [["a-b"; "requirements.txt"]; ["a"; "requirements.txt"];
            ["b"; "requirements.txt"]].
Proof.
  apply (proj1 (sorted_order_independent _ _
                  (perm_trans (perm_swap _ _ _) (perm_skip _ (perm_swap _ _ _))))).
Defined.

Lemma read_all_returns_regular files w cs w' :
  read_all files w = (Ret cs, w') → Forall (is_regular (fs w)) files.
Proof.
  revert cs w'. induction files as [|f files IH]; intros cs w'; [by constructor|].
  cbn [read_all]. unfold bind, read_text.
  destruct (fs w !! f) as [[c|]|] eqn:Hf; [|done..].
  destruct (read_all files w) as [[cs'|e|k] w''] eqn:Hrest; [|done..].
  intros _. constructor; [by exists c|]. by eapply IH.
Qed.

(** X12.  A discovered path that is a directory makes the aggregation
    fail with [IsADirectoryError], and by then the root manifest has been
    truncated: whatever it held before is gone. *)
Theorem aggregation_failure_truncates_root (w : World) (p : list string) :
  fs w !! [REQUIREMENTS_FILE] ≠ Some Directory →
  p ∈ glob_requirements w →
  fs w !! p = Some Directory →
  (source_and_combine_requirements w).1 = Raise IsADirectoryError ∧
  fs (source_and_combine_requirements w).2
  = <[ [REQUIREMENTS_FILE] := Regular "" ]> (fs w).
Proof.
  intros Hroot Hin Hdir. rewrite aggregation_run.
  set (w3 := set_fs _ (set_console (found_console w) w)).
  assert (Hgo : read_all (sorted (glob_requirements w)) w3
                = (Raise IsADirectoryError, w3)).
  { destruct (read_all_present _ _ (aggregation_reads_present w)) as [[cs Hr]|Hr];
      [|exact Hr].
    apply read_all_returns_regular in Hr. rewrite Forall_forall in Hr.
    destruct (Hr p) as [c Hc].
    { by rewrite (sorted_perm (glob_requirements w)). }
    unfold w3 in Hc. cbn [fs set_fs set_console] in Hc.
    rewrite lookup_insert_ne in Hc; [congruence|].
    apply glob_present in Hin as [_ Hne]. congruence. }
  rewrite Hgo.
  by destruct (fs w !! [REQUIREMENTS_FILE]) as [[c|]|].
Qed.

Lemma aggregation_failure_truncates_root_witness :
  let w := mkWorld (<[ ["pkg"; REQUIREMENTS_FILE] := Directory ]>
                      {[ [REQUIREMENTS_FILE] := Regular "flask==2.0.1" ]})
             [] [] [] in
  (source_and_combine_requirements w).1 = Raise IsADirectoryError ∧
  fs (source_and_combine_requirements w).2 !! [REQUIREMENTS_FILE]
  = Some (Regular "").
Proof.
  intros w.
  destruct (aggregation_failure_truncates_root w ["pkg"; REQUIREMENTS_FILE])
    as [Hout Hfs].
  - vm_compute. discriminate.
  - vm_compute. apply list_elem_of_here.
  - reflexivity.
  - split; [exact Hout|]. rewrite Hfs. apply lookup_insert_eq.
Defined.

Lemma glob_insert_root w node :
  Permutation
    (glob_requirements (set_fs (<[ [REQUIREMENTS_FILE] := node ]> (fs w)) w))
    (glob_requirements w).
Proof.
  unfold glob_requirements. cbn [fs set_fs].
  rewrite <- (insert_delete_eq (fs w)).
  rewrite map_to_list_insert by apply lookup_delete_eq.
  rewrite fmap_cons, filter_cons_False by (cbn; done).
  destruct (fs w !! [REQUIREMENTS_FILE]) as [n|] eqn:Hroot.
  - rewrite <- (insert_delete_id (fs w) [REQUIREMENTS_FILE] n) at 2 by done.
    rewrite (map_to_list_insert (delete [REQUIREMENTS_FILE] (fs w)))
      by apply lookup_delete_eq.
    by rewrite fmap_cons, filter_cons_False by (cbn; done).
  - by rewrite delete_id.
Qed.

(** X13.  The aggregation changes no path but the root manifest, and it
    takes nothing from what the root manifest held: run a second time it
    finds the same paths and writes the same text, so every file stays as
    the first run left it. *)
Theorem aggregation_idempotent (w : World) :
  fs w !! [REQUIREMENTS_FILE] ≠ Some Directory →
  Forall (is_regular (fs w)) (glob_requirements w) →
  let w1 := (source_and_combine_requirements w).2 in
  (∀ p, p ≠ [REQUIREMENTS_FILE] → fs w1 !! p = fs w !! p) ∧
  (source_and_combine_requirements w1).1 = Ret () ∧
  fs (source_and_combine_requirements w1).2 = fs w1.
Proof.
  intros Hroot Hreg w1. unfold w1. rewrite (aggregation_returns w) by done.
  cbn [snd]. set (text := join NL _).
  set (w' := set_fs _ (set_console (found_console w) w)).
  assert (Hperm : Permutation (glob_requirements w') (glob_requirements w)).
  { apply (glob_insert_root (set_console (found_console w) w)). }
  assert (Hsorted : sorted (glob_requirements w') = sorted (glob_requirements w)).
  { by apply sorted_order_independent_lemma. }
  assert (Hsame : ∀ p, p ∈ glob_requirements w → fs w' !! p = fs w !! p).
  { intros p Hp. unfold w'. cbn [fs set_fs set_console].
    apply lookup_insert_ne. apply glob_present in Hp as [_ Hne]. congruence. }
  split.
  { intros p Hp. unfold w'. cbn [fs set_fs set_console].
    by apply lookup_insert_ne. }
  rewrite (aggregation_returns w').
  - split; [done|]. cbn [fs set_fs set_console snd]. rewrite Hsorted.
    unfold w' at 2. cbn [fs set_fs set_console]. rewrite insert_insert_eq.
    unfold w' at 2. cbn [fs set_fs set_console]. f_equal. f_equal. unfold text.
    f_equal. apply list_fmap_ext. intros i p Hp%list_elem_of_lookup_2.
    unfold content_of. rewrite Hsame; [done|].
    by rewrite <- (sorted_perm (glob_requirements w)).
  - unfold w'. cbn [fs set_fs set_console]. by rewrite lookup_insert_eq.
  - apply Forall_forall. intros p Hp. rewrite Hperm in Hp.
    unfold is_regular. rewrite (Hsame p Hp).
    rewrite Forall_forall in Hreg. by apply Hreg.
Qed.

(** ** The run as a whole *)

Lemma read_all_present_or_missing files w :
  (∃ cs, read_all files w = (Ret cs, w)) ∨ (∃ e, read_all files w = (Raise e, w)).
Proof.
  induction files as [|f files IH]; [left; by eexists|].
  cbn [read_all]. unfold bind, read_text.
  destruct (fs w !! f) as [[c|]|]; [|right; by eexists..].
  destruct IH as [[cs ->]|[e ->]]; [left|right]; by eexists.
Qed.

Section WholeRun.
Variable proc : list string → ProcResult.

(** *** Exit status *)

Lemma eaf_silent {A} (m : M A) :
  quiet m → (∀ w code, (m w).1 ≠ SysExit code) → exits_after_failure proc m.
Proof.
  intros Hq Hne w. exists []. rewrite app_nil_r. split; [apply Hq|].
  intros code H. by apply Hne in H.
Qed.

Lemma eaf_bind {A B} (m : M A) (k : A → M B) :
  exits_after_failure proc m → (∀ a, exits_after_failure proc (k a)) →
  exits_after_failure proc (bind m k).
Proof.
  intros Hm Hk w. unfold bind. destruct (Hm w) as (new & Hc & Hx).
  destruct (m w) as [[a|e|c] w'] eqn:Hmw; cbn [fst snd] in *.
  - destruct (Hk a w') as (new' & Hc' & Hx').
    exists (new ++ new'). rewrite Hc', Hc, app_assoc. split; [done|].
    intros code (-> & before & command & -> & Hf)%Hx'. split; [done|].
    exists (new ++ before), command. by rewrite app_assoc.
  - exists new. split; [done|]. intros code [=].
  - exists new. split; [done|]. intros code [= <-]. by apply Hx.
Qed.

Lemma eaf_try {A} (body : M A) handler :
  exits_after_failure proc body →
  (∀ e h, handler e = Some h → exits_after_failure proc h) →
  exits_after_failure proc (try_except body handler).
Proof.
  intros Hb Hh w. unfold try_except. destruct (Hb w) as (new & Hc & Hx).
  destruct (body w) as [[a|e|c] w'] eqn:Hbw; cbn [fst snd] in *; [by eauto| |by eauto].
  destruct (handler e) as [h|] eqn:He; [|by eauto].
  destruct (Hh e h He w') as (new' & Hc' & Hx').
  exists (new ++ new'). rewrite Hc', Hc, app_assoc. split; [done|].
  intros code (-> & before & command & -> & Hf)%Hx'. split; [done|].
  exists (new ++ before), command. by rewrite app_assoc.
Qed.

Lemma eaf_run_command command capture :
  exits_after_failure proc (run_command proc command capture).
Proof.
  intros w. exists [command]. rewrite run_command_run. unfold failed.
  destruct (proc command) eqn:Hp; (split; [done|]); intros code [= <-];
    (split; [done|]); exists [], command; by rewrite Hp.
Qed.

Ltac eaf_step :=
  lazymatch goal with
  | |- exits_after_failure _ (bind _ _) => apply eaf_bind; [|intros ?]
  | |- exits_after_failure _ (try_except _ _) => apply eaf_try; [|handler_cases]
  | |- exits_after_failure _ (run_command _ _ _) => apply eaf_run_command
  | |- exits_after_failure _ (match ?x with _ => _ end) => destruct x
  | |- exits_after_failure _ (print_all _) =>
      apply eaf_silent; [apply quiet_print_all|intros ??; by rewrite print_all_run]
  | |- exits_after_failure _ (read_all _) =>
      apply eaf_silent; [apply quiet_read_all|];
      let Hr := fresh "Hr" in
      intros ??;
      lazymatch goal with
      | |- (read_all ?files ?w0).1 ≠ _ =>
          destruct (read_all_present_or_missing files w0) as [[? Hr]|[? Hr]];
          rewrite Hr; done
      end
  | |- exits_after_failure _ _ =>
      apply eaf_silent;
      [ quiet_prim
      | intros ??;
        unfold print, ret, raise, read_text, is_file, is_dir, open_w, write, input;
        repeat case_match; done ]
  end.

Lemma eaf_main : exits_after_failure proc (main proc).
Proof.
  unfold main, source_and_combine_requirements, setup_virtual_environment,
    pin_dependencies, check_for_upgrades.
  repeat eaf_step.
Qed.

(** X14.  A run ends in [sys.exit] with no status but 1, and only right
    after a child process that failed: that process is the last one the
    run started. *)
Theorem main_exit_status (w : World) (code : Z) :
  (main proc w).1 = SysExit code →
  code = 1%Z ∧
  ∃ before command,
    calls (main proc w).2 = calls w ++ before ++ [command] ∧
    failed proc command = true.
Proof.
  intros Hexit. destruct (eaf_main w) as (new & Hc & Hx).
  destruct (Hx code Hexit) as (-> & before & command & -> & Hf).
  split; [done|]. by exists before, command.
Qed.

End WholeRun.

(** *** Exceptions *)

Lemma rw_bind {A B} P (m : M A) (k : A → M B) :
  raises_within P m → (∀ a, raises_within P (k a)) → raises_within P (bind m k).
Proof.
  intros Hm Hk w e. unfold bind. specialize (Hm w).
  destruct (m w) as [[a|e'|c] w']; [apply Hk| |done].
  cbn. intros [= <-]. by apply Hm.
Qed.

Lemma rw_try {A} (Q P : Exn → Prop) (body : M A) handler :
  raises_within Q body →
  (∀ e, Q e → match handler e with
              | Some h => raises_within P h
              | None => P e
              end) →
  raises_within P (try_except body handler).
Proof.
  intros Hb Hh w e. unfold try_except. specialize (Hb w).
  destruct (body w) as [[a|e'|c] w']; [done| |done].
  specialize (Hh e' (Hb e' eq_refl)).
  destruct (handler e') as [h|]; [apply Hh|]. cbn. by intros [= <-].
Qed.

Lemma rw_weaken {A} (P Q : Exn → Prop) (m : M A) :
  raises_within P m → (∀ e, P e → Q e) → raises_within Q m.
Proof. intros Hm HPQ w e H. by apply HPQ, (Hm w). Qed.

Section Exceptions.
Variable proc : list string → ProcResult.

Lemma rw_run_command P command capture :
  raises_within P (run_command proc command capture).
Proof. intros w e. rewrite run_command_run. by destruct (proc command). Qed.

Ltac rw_prim :=
  intros ??;
  unfold print, ret, raise, read_text, is_file, is_dir, open_w, write, input,
    file_error;
  repeat case_match; intros [=]; subst; eauto.

Ltac rw_step :=
  lazymatch goal with
  | |- raises_within _ (bind _ _) => apply rw_bind; [|intros ?]
  | |- raises_within _ (try_except (bind (read_text _) _) _) =>
      apply (rw_try file_error);
      [|intros ? [->|[? ->]]; [by left|]]
  | |- raises_within _ (try_except (bind (input _) _) _) =>
      apply (rw_try (λ e, e = EOFError)); [|intros ? ->]
  | |- raises_within _ (try_except (bind (run_command _ _ _) _) _) =>
      apply (rw_try (λ _, False)); [|intros ? []]
  | |- raises_within _ (run_command _ _ _) => apply rw_run_command
  | |- raises_within _ (match ?x with _ => _ end) => destruct x
  | |- raises_within _ (print_all _) => intros ??; by rewrite print_all_run
  | |- raises_within _ _ => rw_prim
  end.

Lemma rw_read_all files : raises_within file_error (read_all files).
Proof.
  induction files as [|f files IH]; [done|]. cbn [read_all].
  apply rw_bind; [rw_prim|]. intros c. apply rw_bind; [done|]. by intros cs.
Qed.

Lemma rw_main : raises_within file_error (main proc).
Proof.
  unfold main, source_and_combine_requirements, setup_virtual_environment,
    pin_dependencies, check_for_upgrades.
  repeat first [apply rw_read_all | rw_step].
Qed.

(** X15.  The only exception a run lets through is [IsADirectoryError]:
    [FileNotFoundError], [CalledProcessError] and [EOFError] are all
    handled on the way. *)
Theorem main_only_directory_error (w : World) (e : Exn) :
  (main proc w).1 = Raise e → e = IsADirectoryError.
Proof.
  intros Hraise. destruct (rw_main w e Hraise) as [->|[msg ->]]; [done|].
  by apply main_never_missing_file in Hraise.
Qed.

End Exceptions.

(** *** Standard input *)

Lemma one_line_then {A B} (m : M A) (k : A → M B) :
  reads_at_most_one_line m → (∀ a, preserves stdin (k a)) →
  reads_at_most_one_line (bind m k).
Proof.
  intros Hm Hk w. unfold bind. specialize (Hm w).
  destruct (m w) as [[a|e|c] w']; [|done..].
  cbn in Hm. by rewrite (Hk a w').
Qed.

Lemma then_one_line {A B} (m : M A) (k : A → M B) :
  preserves stdin m → (∀ a, reads_at_most_one_line (k a)) →
  reads_at_most_one_line (bind m k).
Proof.
  intros Hm Hk w. unfold bind. specialize (Hm w).
  destruct (m w) as [[a|e|c] w']; cbn in Hm; [|by left..].
  rewrite <- Hm. apply Hk.
Qed.

Lemma no_line {A} (m : M A) : preserves stdin m → reads_at_most_one_line m.
Proof. intros Hm w. left. apply Hm. Qed.

Section Input.
Variable proc : list string → ProcResult.

Ltac keeps_stdin_step :=
  lazymatch goal with
  | |- preserves _ (bind _ _) => apply preserves_bind; [|intros ?]
  | |- preserves _ (try_except _ _) => apply preserves_try; [|handler_cases]
  | |- preserves stdin (run_command _ _ _) => apply run_command_keeps_stdin
  | |- preserves _ (print_all _) => intros ?; by rewrite print_all_run
  | |- preserves _ (match ?x with _ => _ end) => destruct x
  | |- preserves _ _ =>
      intros ?;
      unfold print, ret, read_text, is_file, is_dir, open_w, write;
      repeat case_match; reflexivity
  end.

Lemma prompt_one_line :
  reads_at_most_one_line
    (try_except
       (bind (input "> Would you like to upgrade these packages? (y/n): ")
          (λ a, ret (strip (lower a))))
       (λ e, match e with EOFError => Some (ret "n") | _ => None end)).
Proof.
  intros w. unfold try_except, bind, input, ret.
  destruct (stdin w) as [|l rest] eqn:Hin; cbn; rewrite ?Hin; by auto.
Qed.

Lemma check_one_line venv :
  reads_at_most_one_line (check_for_upgrades proc venv).
Proof.
  unfold check_for_upgrades.
  repeat first
    [ apply one_line_then; [apply prompt_one_line|intros ?; repeat keeps_stdin_step]
    | apply then_one_line; [repeat keeps_stdin_step|intros ?]
    | lazymatch goal with
      | |- reads_at_most_one_line (match ?x with _ => _ end) => destruct x
      end
    | apply no_line; repeat keeps_stdin_step ].
Qed.

(** X16.  A whole run takes at most one line from standard input, the
    answer to the confirmation prompt; the aggregation, the provisioning
    and the pinning take none. *)
Theorem main_reads_at_most_one_line (w : World) :
  (stdin (main proc w).2 = stdin w ∨ stdin (main proc w).2 = tail (stdin w)) ∧
  stdin (source_and_combine_requirements w).2 = stdin w ∧
  stdin (setup_virtual_environment proc w).2 = stdin w ∧
  (∀ venv, stdin (pin_dependencies proc venv w).2 = stdin w).
Proof.
  split; [|split; [|split]].
  - revert w. change (reads_at_most_one_line (main proc)). unfold main.
    apply then_one_line; [apply aggregation_keeps_stdin|intros _].
    apply then_one_line; [repeat keeps_stdin_step|intros generated].
    destruct (negb generated); [apply no_line; repeat keeps_stdin_step|].
    apply then_one_line; [apply setup_keeps_stdin|intros venv].
    apply then_one_line; [repeat keeps_stdin_step|intros _].
    apply then_one_line; [repeat keeps_stdin_step|intros _].
    apply then_one_line; [repeat keeps_stdin_step|intros _].
    apply then_one_line; [apply pin_keeps_stdin|intros _].
    apply check_one_line.
  - apply aggregation_keeps_stdin.
  - apply setup_keeps_stdin.
  - intros venv. apply pin_keeps_stdin.
Qed.

End Input.

(** *** A failed installation *)

Section FailedInstall.
Variable proc : list string → ProcResult.



End FailedInstall.

(** * The further statements at concrete inputs *)

Lemma pin_dependencies_nothing_to_pin_witness :
  (pin_dependencies example_proc PYTHON_VENV_EXECUTABLE
     (one_line_world example_manifest)).1 = Ret () ∧
  calls (pin_dependencies example_proc PYTHON_VENV_EXECUTABLE
           (one_line_world example_manifest)).2 = [].
Proof.
  assert (H := pin_dependencies_nothing_to_pin example_proc PYTHON_VENV_EXECUTABLE
                 (one_line_world example_manifest) example_manifest eq_refl).
  rewrite H.
  - split; reflexivity.
  - intros line Hin. apply list_elem_of_singleton in Hin as ->. reflexivity.
Defined.

Lemma aggregation_idempotent_witness :
  fs (source_and_combine_requirements
        (source_and_combine_requirements project_world).2).2
  = fs (source_and_combine_requirements project_world).2.
Proof.
  apply (aggregation_idempotent project_world).
  - vm_compute. discriminate.
  - vm_compute. repeat constructor; eexists; vm_compute; reflexivity.
Defined.

Lemma main_exit_status_witness :
  (main no_tools empty_world).1 = SysExit 1 ∧
  ∃ before command,
    calls (main no_tools empty_world).2
    = calls empty_world ++ before ++ [command] ∧
    failed no_tools command = true.
Proof.
  split; [reflexivity|].
  exact (proj2 (main_exit_status no_tools empty_world 1 eq_refl)).
Defined.

Lemma main_only_directory_error_witness :
  ∃ e, (main example_proc blocked_world).1 = Raise e ∧ e = IsADirectoryError.
Proof.
  exists IsADirectoryError. split; [reflexivity|].
  apply (main_only_directory_error example_proc blocked_world). reflexivity.
Defined.


Lemma installed_packages_entries_witness :
  installed_packages ("flask==1.0" +:+ NL +:+ "-e git+https://example.org/x.git"
                        +:+ NL +:+ "Flask==2.0.1" +:+ NL) !! "flask"
  = Some "Flask==2.0.1".
Proof.
  apply (proj1 (proj2 (installed_packages_entries _))
           ["flask==1.0"; "-e git+https://example.org/x.git"] "Flask==2.0.1" []).
  - reflexivity.
  - reflexivity.
  - intros later Hin. by apply elem_of_nil in Hin.
Defined.
